(** * coffee_proxy_reverse: a shallow embedding of [main.go]

    The reverse proxy keeps three pieces of global state: the settings read
    from [system.conf], the routing table [proxyMap] (request host to
    forwarding handler) and the per-client limiter registry [rateLimiter].
    Every request runs through the handler chain built in [main]:
    rate limiting, IP filtering, body-size capping, dispatch.

    Go maps are modelled as [gmap]s, pointers to limiters as addresses into
    a heap, handlers as state-passing functions, and the worker channel as
    a small transition system. *)

From Stdlib Require Import ZArith String Ascii List Lia.
From stdpp Require Import base option list gmap strings fin_maps.

Local Open Scope string_scope.

(** ** The Go standard library, as far as [main.go] calls it *)

Module strings.

(** [strings.IndexByte]: position of the first [c] in [s]. *)
Fixpoint IndexByte (s : string) (c : ascii) : option nat :=
  match s with
  | EmptyString => None
  | String a s' => if Ascii.eqb a c then Some 0 else S <$> IndexByte s' c
  end.

(** [strings.LastIndexByte]: position of the last [c] in [s]. *)
Fixpoint LastIndexByte (s : string) (c : ascii) : option nat :=
  match s with
  | EmptyString => None
  | String a s' =>
      match LastIndexByte s' c with
      | Some i => Some (S i)
      | None => if Ascii.eqb a c then Some 0 else None
      end
  end.

(** The slice expression [s[i:j]]. *)
Definition slice (s : string) (i j : nat) : string := substring i (j - i) s.

(** The slice expression [s[i:]]. *)
Definition slice_from (s : string) (i : nat) : string :=
  substring i (String.length s - i) s.

(** [strings.HasSuffix]. *)
Definition HasSuffix (s suffix : string) : bool :=
  (String.length suffix <=? String.length s)%nat &&
  String.eqb (slice_from s (String.length s - String.length suffix)) suffix.

(** [strings.TrimSuffix]. *)
Definition TrimSuffix (s suffix : string) : string :=
  if HasSuffix s suffix
  then slice s 0 (String.length s - String.length suffix)
  else s.

(** [strings.Split] for a separator of one byte, the only way the source
    calls it.  A string without the separator, the empty string included,
    gives a list of one element. *)
Fixpoint Split (s : string) (sep : ascii) : list string :=
  match s with
  | EmptyString => [EmptyString]
  | String a s' =>
      if Ascii.eqb a sep then EmptyString :: Split s' sep
      else match Split s' sep with
           | [] => [String a EmptyString]
           | h :: t => String a h :: t
           end
  end.

End strings.

Module filepath.

(** [filepath.Ext]: the suffix of the last path element that starts at its
    final dot; empty when that element has no dot. *)
Definition Ext (path : string) : string :=
  match strings.LastIndexByte path "." with
  | None => ""
  | Some i =>
      let ext := strings.slice_from path i in
      match strings.IndexByte ext "/" with
      | Some _ => ""
      | None => ext
      end
  end.

(** [filepath.Join] of a directory and a file name, without the lexical
    [Clean] pass: cleaning does not change which file a path names. *)
Definition Join (dir name : string) : string := dir +:+ "/" +:+ name.

End filepath.

Module net.

(** [net.SplitHostPort]: splits ["host:port"], ["[host]:port"] into host and
    port; [None] stands for the returned [*AddrError]. *)
Definition SplitHostPort (hostport : string) : option (string * string) :=
  match strings.LastIndexByte hostport ":" with
  | None => None (* missing port in address *)
  | Some i =>
      let bracketed :=
        match hostport with
        | String "[" _ => true
        | _ => false
        end in
      let parsed : option (string * nat * nat) :=
        if bracketed then
          match strings.IndexByte hostport "]" with
          | None => None (* missing ']' in address *)
          | Some end_ =>
              if (end_ + 1 =? String.length hostport)%nat then None
              else if (end_ + 1 =? i)%nat
                   then Some (strings.slice hostport 1 end_, 1, end_ + 1)
                   else None
          end
        else
          let host := strings.slice hostport 0 i in
          match strings.IndexByte host ":" with
          | Some _ => None (* too many colons in address *)
          | None => Some (host, 0, 0)
          end in
      match parsed with
      | None => None
      | Some (host, j, k) =>
          match strings.IndexByte (strings.slice_from hostport j) "[" with
          | Some _ => None (* unexpected '[' in address *)
          | None =>
              match strings.IndexByte (strings.slice_from hostport k) "]" with
              | Some _ => None (* unexpected ']' in address *)
              | None => Some (host, strings.slice_from hostport (i + 1))
              end
          end
      end
  end.

End net.

Module url.

(** [url.URL], with the fields a forwarded request's target is made of. *)
Record URL := mkURL {
  Scheme : string;
  Host : string;
  Path : string;
  RawQuery : string
}.

(** The assignment [u.Scheme = scheme]. *)
Definition with_Scheme (u : URL) (scheme : string) : URL :=
  {| Scheme := scheme; Host := Host u; Path := Path u; RawQuery := RawQuery u |}.

(** The assignment [u.Host = host]. *)
Definition with_Host (u : URL) (host : string) : URL :=
  {| Scheme := Scheme u; Host := host; Path := Path u; RawQuery := RawQuery u |}.

End url.

Module http.

(** A request body: the connection's reader, possibly wrapped by
    [http.MaxBytesReader]. *)
Inductive Reader :=
| Body_of (content : string)
| MaxBytesReader (r : Reader) (n : Z).

(** [http.Request], with the fields the handlers and the director touch. *)
Record Request := mkRequest {
  Host : string;
  RemoteAddr : string;
  URL : url.URL;
  Header : list (string * list string);
  Body : Reader
}.

(** The assignment [r.URL = u]. *)
Definition with_URL (r : Request) (u : url.URL) : Request :=
  {| Host := Host r; RemoteAddr := RemoteAddr r; URL := u;
     Header := Header r; Body := Body r |}.

(** The assignment [r.Body = body]. *)
Definition with_Body (r : Request) (body : Reader) : Request :=
  {| Host := Host r; RemoteAddr := RemoteAddr r; URL := URL r;
     Header := Header r; Body := body |}.

Definition StatusForbidden : Z := 403%Z.
Definition StatusUnauthorized : Z := 401%Z.
Definition StatusNotFound : Z := 404%Z.
Definition StatusTooManyRequests : Z := 429%Z.
Definition StatusInternalServerError : Z := 500%Z.

End http.

Module ini.

(** A loaded configuration file of [gopkg.in/ini.v1], seen through the
    accessors [main.go] uses on [cfg.Section(s).Key(k)]: [String] gives the
    empty string for a key that is missing, [Int], [Int64] and [Bool] fail
    ([None]) on a value that does not parse. *)
Record File := mkFile {
  KeyString : string -> string -> string;
  KeyInt : string -> string -> option Z;
  KeyInt64 : string -> string -> option Z;
  KeyBool : string -> string -> option bool
}.

Definition MustInt (cfg : File) (s k : string) (d : Z) : Z :=
  default d (KeyInt cfg s k).
Definition MustInt64 (cfg : File) (s k : string) (d : Z) : Z :=
  default d (KeyInt64 cfg s k).
Definition MustBool (cfg : File) (s k : string) (d : bool) : bool :=
  default d (KeyBool cfg s k).

End ini.

Module rate.

Local Open Scope Z_scope.

(** Time in nanoseconds, as [time.Time] counts it. *)
Definition Time := Z.

(** One token, in the unit the bucket counts in: the bucket holds billionths
    of a token, so that a refill over whole nanoseconds at a whole number of
    tokens per second is exact. *)
Definition token : Z := 1000000000.

(** Modelled from the spec: the token bucket of [golang.org/x/time/rate],
    which is not part of the repository.  Its state is "capacity = burst
    limit, refill rate = requests-per-second, current tokens, last-refill
    timestamp". *)
Record Limiter := mkLimiter {
  limit : Z;
  burst : Z;
  tokens : Z;
  last : Time
}.

(** Modelled from the spec: [rate.NewLimiter] is missing from the sources;
    "a client bucket starts full (burst_limit tokens)". *)
Definition NewLimiter (r : Z) (b : Z) : Limiter :=
  {| limit := r; burst := b; tokens := b * token; last := 0 |}.

(** Modelled from the spec: the refill is missing from the sources; "refill
    continuously at configured requests-per-second (fractional accumulation,
    not just integer ticks)", never past the capacity.  The result is the
    bucket's content at [now]. *)
Definition advance (lim : Limiter) (now : Time) : Z :=
  Z.min (burst lim * token) (tokens lim + Z.max 0 (now - last lim) * limit lim).

(** Modelled from the spec: [Limiter.Allow] is missing from the sources;
    it "attempts to consume one token; returns false if the bucket is
    empty", and "a denied attempt does not consume a token". *)
Definition Allow (lim : Limiter) (now : Time) : bool * Limiter :=
  let available := advance lim now in
  if token <=? available
  then (true, {| limit := limit lim; burst := burst lim;
                 tokens := available - token; last := now |})
  else (false, lim).

End rate.

(** ** The program's data *)

Record RateLimitingConfig := {
  RequestsPerSecond : Z;
  BurstLimit : Z
}.

Record TimeoutsConfig := {
  ReadTimeout : Z;
  WriteTimeout : Z;
  IdleTimeout : Z
}.

Record RequestLimitsConfig := {
  MaxRequestSize : Z
}.

Record SSLConfig := {
  Enabled : bool;
  CertFile : string;
  KeyFile : string
}.

Record IPList := {
  IPs : list string
}.

(** [type Config struct]. *)
Record Config := {
  RateLimiting : RateLimitingConfig;
  Timeouts : TimeoutsConfig;
  RequestLimits : RequestLimitsConfig;
  SSL : SSLConfig;
  Whitelist : IPList;
  Blacklist : IPList
}.

(** [httputil.ReverseProxy], of which the source sets the [Director] only.
    The director rewrites the outbound request in place; [None] is the panic
    of a nil pointer dereference. *)
Record ReverseProxy := {
  Director : http.Request -> option http.Request
}.

(** A [*rate.Limiter]: the address of a limiter in the heap. *)
Definition LimiterPtr := nat.

(** The package-level variables [config], [proxyMap] and [rateLimiter],
    and the heap the limiters live in.  [mutex] and [limiterLock] make each
    function below atomic, which is what a state-passing function is. *)
Record State := mkState {
  config : Config;
  proxyMap : gmap string ReverseProxy;
  rateLimiter : gmap string LimiterPtr;
  heap : list rate.Limiter
}.

(** The package-level variables when [main] starts: [config] is the zero
    [Config], both maps are freshly made. *)
Definition initial : State :=
  {| config := {|
       RateLimiting := {| RequestsPerSecond := 0; BurstLimit := 0 |};
       Timeouts := {| ReadTimeout := 0; WriteTimeout := 0; IdleTimeout := 0 |};
       RequestLimits := {| MaxRequestSize := 0 |};
       SSL := {| Enabled := false; CertFile := ""; KeyFile := "" |};
       Whitelist := {| IPs := [] |};
       Blacklist := {| IPs := [] |} |};
     proxyMap := ∅;
     rateLimiter := ∅;
     heap := [] |}.

(** What a handler does with its [http.ResponseWriter]: it answers through
    [http.Error], or it sends the closure [func() { proxy.ServeHTTP(w, r) }]
    to the [workerPool] channel. *)
Inductive Outcome :=
| http_Error (error : string) (code : Z)
| Submit (proxy : ReverseProxy) (r : http.Request).

(** An [http.Handler], run at the instant [now] on the global state. *)
Definition Handler := http.Request -> rate.Time -> State -> Outcome * State.

(** The file system as [main.go] reads it: [ioutil.ReadDir] gives the names
    in a directory and [ini.Load] the parsed file at a path, [None] being the
    error either returns. *)
Record FileSystem := {
  ReadDir : string -> option (list string);
  Load : string -> option ini.File
}.

(** ** The program's functions *)

(** [loadConfig]: [false] is the error of [ini.Load], which leaves [config]
    untouched. *)
Definition loadConfig (filePath : string) (fs : FileSystem) (st : State)
  : bool * State :=
  match Load fs filePath with
  | None => (false, st)
  | Some cfg =>
      (true,
       {| config := {|
            RateLimiting := {|
              RequestsPerSecond := ini.MustInt cfg "rate_limiting" "requests_per_second" 1%Z;
              BurstLimit := ini.MustInt cfg "rate_limiting" "burst_limit" 5%Z |};
            Timeouts := {|
              ReadTimeout := ini.MustInt cfg "timeouts" "read_timeout" 5%Z;
              WriteTimeout := ini.MustInt cfg "timeouts" "write_timeout" 10%Z;
              IdleTimeout := ini.MustInt cfg "timeouts" "idle_timeout" 30%Z |};
            RequestLimits := {|
              MaxRequestSize := ini.MustInt64 cfg "request_limits" "max_request_size" 1048576%Z |};
            SSL := {|
              Enabled := ini.MustBool cfg "ssl" "enabled" true;
              CertFile := ini.KeyString cfg "ssl" "cert_file";
              KeyFile := ini.KeyString cfg "ssl" "key_file" |};
            Whitelist := {| IPs := strings.Split (ini.KeyString cfg "whitelist" "ips") "," |};
            Blacklist := {| IPs := strings.Split (ini.KeyString cfg "blacklist" "ips") "," |}
          |};
          proxyMap := proxyMap st;
          rateLimiter := rateLimiter st;
          heap := heap st |})
  end.

(** [getRateLimiter]: the limiter of [ip], created on first use. *)
Definition getRateLimiter (ip : string) (st : State) : LimiterPtr * State :=
  match rateLimiter st !! ip with
  | Some limiter => (limiter, st)
  | None =>
      let limiter := length (heap st) in
      (limiter,
       {| config := config st;
          proxyMap := proxyMap st;
          rateLimiter := <[ip := limiter]> (rateLimiter st);
          heap := heap st ++ [rate.NewLimiter
                                (RequestsPerSecond (RateLimiting (config st)))
                                (BurstLimit (RateLimiting (config st)))] |})
  end.

(** [limiter.Allow()] through the pointer: the limiter is updated in place.
    A pointer the registry handed out always points into the heap. *)
Definition Allow (limiter : LimiterPtr) (now : rate.Time) (st : State)
  : bool * State :=
  match heap st !! limiter with
  | None => (false, st)
  | Some lim =>
      let '(ok, lim') := rate.Allow lim now in
      (ok,
       {| config := config st;
          proxyMap := proxyMap st;
          rateLimiter := rateLimiter st;
          heap := <[limiter := lim']> (heap st) |})
  end.

(** The two lines [limiter := getRateLimiter(ip)] and [limiter.Allow()]
    of [rateLimitMiddleware]. *)
Definition rateLimit (ip : string) (now : rate.Time) (st : State)
  : bool * State :=
  let '(limiter, st) := getRateLimiter ip st in
  Allow limiter now st.

(** [rateLimitMiddleware]. *)
Definition rateLimitMiddleware (next : Handler) : Handler :=
  fun r now st =>
    match net.SplitHostPort (http.RemoteAddr r) with
    | None => (http_Error "Internal Server Error" http.StatusInternalServerError, st)
    | Some (ip, _) =>
        let '(ok, st) := rateLimit ip now st in
        if negb ok
        then (http_Error "Too Many Requests" http.StatusTooManyRequests, st)
        else next r now st
    end.

(** [ipFilterMiddleware]: the blacklist loop returns on its first match,
    the whitelist loop sets [allowed] on its first match. *)
Definition ipFilterMiddleware (next : Handler) : Handler :=
  fun r now st =>
    match net.SplitHostPort (http.RemoteAddr r) with
    | None => (http_Error "Internal Server Error" http.StatusInternalServerError, st)
    | Some (ip, _) =>
        if existsb (fun blockedIP => String.eqb blockedIP ip)
                   (IPs (Blacklist (config st)))
        then (http_Error "Forbidden" http.StatusForbidden, st)
        else
          let allowed := existsb (fun allowedIP => String.eqb allowedIP ip)
                                 (IPs (Whitelist (config st))) in
          if negb allowed
          then (http_Error "Unauthorized" http.StatusUnauthorized, st)
          else next r now st
    end.

(** [limitRequestSizeMiddleware]. *)
Definition limitRequestSizeMiddleware (next : Handler) : Handler :=
  fun r now st =>
    let r := http.with_Body r
               (http.MaxBytesReader (http.Body r)
                  (MaxRequestSize (RequestLimits (config st)))) in
    next r now st.

(** [proxyHandler]. *)
Definition proxyHandler : Handler :=
  fun r now st =>
    let domain := http.Host r in
    match proxyMap st !! domain with
    | Some proxy => (Submit proxy r, st)
    | None => (http_Error "Domain not found" http.StatusNotFound, st)
    end.

(** The [Handler] of the server in [main]. *)
Definition serverHandler : Handler :=
  rateLimitMiddleware (ipFilterMiddleware (limitRequestSizeMiddleware proxyHandler)).

Section Domains.

(** [url.Parse] of [net/url]; [None] is a parse error, for which the
    returned [*url.URL] is nil. *)
Variable url_Parse : string -> option url.URL.

(** [newReverseProxy]: the error of [url.Parse] is dropped, and the
    director reads the scheme and host through the returned pointer. *)
Definition newReverseProxy (target : string) : ReverseProxy :=
  let url := url_Parse target in
  {| Director := fun req =>
       match url with
       | None => None
       | Some u =>
           let req := http.with_URL req
                        (url.with_Scheme (http.URL req) (url.Scheme u)) in
           let req := http.with_URL req
                        (url.with_Host (http.URL req) (url.Host u)) in
           Some req
       end |}.

(** The body of the loop of [loadDomains] for one directory entry. *)
Definition loadDomain (fs : FileSystem) (directory : string)
    (table : gmap string ReverseProxy) (name : string)
  : gmap string ReverseProxy :=
  if String.eqb (filepath.Ext name) ".conf" then
    let domain := strings.TrimSuffix name (filepath.Ext name) in
    let filePath := filepath.Join directory name in
    match Load fs filePath with
    | None => table
    | Some cfg =>
        let backendURL := ini.KeyString cfg "proxy" "backend_url" in
        <[domain := newReverseProxy backendURL]> table
    end
  else table.

(** [loadDomains]: [false] is the error of [ioutil.ReadDir]. *)
Definition loadDomains (directory : string) (fs : FileSystem) (st : State)
  : bool * State :=
  match ReadDir fs directory with
  | None => (false, st)
  | Some files =>
      (true,
       {| config := config st;
          proxyMap := fold_left (loadDomain fs directory) files (proxyMap st);
          rateLimiter := rateLimiter st;
          heap := heap st |})
  end.

End Domains.

(** Requests served one after the other, all at the instant [now]. *)
Fixpoint serve (h : Handler) (now : rate.Time) (rs : list http.Request)
    (st : State) : list Outcome * State :=
  match rs with
  | [] => ([], st)
  | r :: rs =>
      let '(o, st) := h r now st in
      let '(os, st) := serve h now rs st in
      (o :: os, st)
  end.

(** The status code a handler answered with, if it answered. *)
Definition status (o : Outcome) : option Z :=
  match o with
  | http_Error _ code => Some code
  | Submit _ _ => None
  end.

(** [getRateLimiter] called for one client after the other; the result
    lists the pointers returned. *)
Fixpoint acquire_all (ips : list string) (st : State)
  : list LimiterPtr * State :=
  match ips with
  | [] => ([], st)
  | ip :: ips =>
      let '(limiter, st) := getRateLimiter ip st in
      let '(limiters, st) := acquire_all ips st in
      (limiter :: limiters, st)
  end.

(** The registry is well formed: every registered pointer points into the
    heap, no limiter is registered for two clients, and the heap holds no
    limiter besides the registered ones. *)
Definition registry_wf (st : State) : Prop :=
  (forall ip l, rateLimiter st !! ip = Some l -> l < length (heap st)) /\
  (forall ip ip' l,
     rateLimiter st !! ip = Some l -> rateLimiter st !! ip' = Some l -> ip = ip') /\
  length (heap st) = size (rateLimiter st).

(** The content at [now] of the bucket that [getRateLimiter] gives for
    [ip], in billionths of a token. *)
Definition bucket_at (ip : string) (now : rate.Time) (st : State) (k : Z) : Prop :=
  exists lim,
    heap (getRateLimiter ip st).2 !! (getRateLimiter ip st).1 = Some lim /\
    rate.advance lim now = k.

(** ** The worker pool *)

Module pool.

(** A task is the closure [func() { proxy.ServeHTTP(w, r) }], that is, the
    variables it captures. *)
Definition Task := (ReverseProxy * http.Request)%type.

(** The channel [workerPool] (its capacity and the tasks buffered in it)
    and the goroutines started by [initWorkerPool]: a worker is waiting in
    [range workerPool] ([None]) or inside [task()] ([Some task]). *)
Record WorkerPool := mkPool {
  capacity : nat;
  buffer : list Task;
  workers : list (option Task)
}.

(** [initWorkerPool]: [make(chan func(), numWorkers)] and [numWorkers]
    times [go worker()]. *)
Definition initWorkerPool (numWorkers : nat) : WorkerPool :=
  {| capacity := numWorkers; buffer := []; workers := replicate numWorkers None |}.

(** The steps of the pool: a handler's send [workerPool <- task], worker
    [i] receiving its next task, and worker [i] returning from [task()]. *)
Inductive Event :=
| Send (task : Task)
| Receive (i : nat)
| Finish (i : nat).

(** One step; [None] when the step cannot be taken now: a send on a full
    channel and a receive on an empty one block. *)
Definition step (p : WorkerPool) (e : Event) : option WorkerPool :=
  match e with
  | Send task =>
      if (length (buffer p) <? capacity p)%nat
      then Some {| capacity := capacity p;
                   buffer := buffer p ++ [task];
                   workers := workers p |}
      else None
  | Receive i =>
      match workers p !! i, buffer p with
      | Some None, task :: rest =>
          Some {| capacity := capacity p;
                  buffer := rest;
                  workers := <[i := Some task]> (workers p) |}
      | _, _ => None
      end
  | Finish i =>
      match workers p !! i with
      | Some (Some _) =>
          Some {| capacity := capacity p;
                  buffer := buffer p;
                  workers := <[i := None]> (workers p) |}
      | _ => None
      end
  end.

(** A schedule: steps taken one after the other. *)
Fixpoint run (p : WorkerPool) (es : list Event) : option WorkerPool :=
  match es with
  | [] => Some p
  | e :: es =>
      match step p e with
      | Some p' => run p' es
      | None => None
      end
  end.

(** The pools the program can be in after [initWorkerPool numWorkers]. *)
Definition reachable (numWorkers : nat) (p : WorkerPool) : Prop :=
  exists es, run (initWorkerPool numWorkers) es = Some p.

(** The tasks being executed. *)
Definition running (p : WorkerPool) : list Task := omap id (workers p).

(** The send a handler is about to make: [proxyHandler] sends the closure
    it built for a known domain, and nothing after an [http.Error]. *)
Definition send_of (o : Outcome) : option Event :=
  match o with
  | Submit proxy r => Some (Send (proxy, r))
  | http_Error _ _ => None
  end.




(** A step of a worker, as opposed to a handler's send. *)
Definition worker_event (e : Event) : bool :=
  match e with
  | Send _ => false
  | Receive _ | Finish _ => true
  end.

End pool.

(** What every step of the pool keeps: the channel's capacity, the number
    of workers, and no more buffered tasks than the capacity. *)
Definition pool_inv (numWorkers : nat) (p : pool.WorkerPool) : Prop :=
  pool.capacity p = numWorkers /\
  length (pool.workers p) = numWorkers /\
  length (pool.buffer p) <= numWorkers.

(** A host or port written without colon or bracket, as both parts of an
    IPv4 peer address are. *)
Definition plain (s : string) : Prop :=
  strings.IndexByte s ":" = None /\
  strings.IndexByte s "[" = None /\
  strings.IndexByte s "]" = None.

Section Startup.

Variable url_Parse : string -> option url.URL.

(** The first steps of [main]: [loadConfig("system.conf")], then
    [loadDomains("./list_domain")]; [None] is the [log.Fatalf] that ends the
    process when either returns an error. *)
Definition startup (fs : FileSystem) : option State :=
  match loadConfig "system.conf" fs initial with
  | (false, _) => None
  | (true, st) =>
      match loadDomains url_Parse "./list_domain" fs st with
      | (false, _) => None
      | (true, st) => Some st
      end
  end.

End Startup.

Module fsnotify.

(** [fsnotify.Event]: the file concerned and the bit set of operations. *)
Record Event := mkEvent {
  Name : string;
  Op : Z
}.

End fsnotify.

Section Watch.

(** The operation bits [fsnotify.Write], [fsnotify.Create] and
    [fsnotify.Remove], whose values the library fixes. *)
Variables (fsnotify_Write fsnotify_Create fsnotify_Remove : Z).

Variable url_Parse : string -> option url.URL.

(** The condition under which the loop of [watchDomains] reloads. *)
Definition reloads (event : fsnotify.Event) : bool :=
  (Z.land (fsnotify.Op event) fsnotify_Write =? fsnotify_Write)%Z ||
  (Z.land (fsnotify.Op event) fsnotify_Create =? fsnotify_Create)%Z ||
  (Z.land (fsnotify.Op event) fsnotify_Remove =? fsnotify_Remove)%Z.

(** The loop of [watchDomains] over the events it receives, each paired
    with the file system as it is when the event is handled.  The error
    that [loadDomains] returns is dropped, as in the source. *)
Fixpoint watchEvents (directory : string)
    (events : list (fsnotify.Event * FileSystem)) (st : State) : State :=
  match events with
  | [] => st
  | (event, fs) :: events =>
      let st :=
        if reloads event
        then (loadDomains url_Parse directory fs st).2
        else st in
      watchEvents directory events st
  end.

End Watch.

(** Requests served one after the other, each at its own instant. *)
Fixpoint serve_at (h : Handler) (rs : list (http.Request * rate.Time))
    (st : State) : list Outcome * State :=
  match rs with
  | [] => ([], st)
  | (r, now) :: rs =>
      let '(o, st) := h r now st in
      let '(os, st) := serve_at h rs st in
      (o :: os, st)
  end.

(** ** Sample data for the examples *)

Module sample.

(** An instance of [url.Parse] for the examples.  It agrees with [net/url]
    on a URL that starts with a colon ("missing protocol scheme") and on
    plain absolute URLs [scheme://host/path?query]; any other text is taken
    as a path. *)
Definition url_Parse (rawURL : string) : option url.URL :=
  match strings.IndexByte rawURL ":" with
  | Some 0 => None
  | Some i =>
      if String.eqb (strings.slice rawURL (i + 1) (i + 3)) "//" then
        let rest := strings.slice_from rawURL (i + 3) in
        let '(rest, query) :=
          match strings.IndexByte rest "?" with
          | Some q => (strings.slice rest 0 q, strings.slice_from rest (q + 1))
          | None => (rest, "")
          end in
        let '(host, path) :=
          match strings.IndexByte rest "/" with
          | Some s => (strings.slice rest 0 s, strings.slice_from rest s)
          | None => (rest, "")
          end in
        Some {| url.Scheme := strings.slice rawURL 0 i; url.Host := host;
                url.Path := path; url.RawQuery := query |}
      else Some {| url.Scheme := ""; url.Host := ""; url.Path := rawURL;
                   url.RawQuery := "" |}
  | None => Some {| url.Scheme := ""; url.Host := ""; url.Path := rawURL;
                    url.RawQuery := "" |}
  end.

(** A configuration file holding the given keys of one section. *)
Definition ini_file (section : string) (keys : list (string * string)) : ini.File :=
  {| ini.KeyString := fun s k =>
       if String.eqb s section
       then default "" (snd <$> List.find (fun kv => String.eqb (fst kv) k) keys)
       else "";
     ini.KeyInt := fun _ _ => None;
     ini.KeyInt64 := fun _ _ => None;
     ini.KeyBool := fun _ _ => None |}.

(** The settings of the repository's [system.conf]. *)
Definition system_conf : Config :=
  {| RateLimiting := {| RequestsPerSecond := 1; BurstLimit := 5 |};
     Timeouts := {| ReadTimeout := 5; WriteTimeout := 10; IdleTimeout := 30 |};
     RequestLimits := {| MaxRequestSize := 1048576 |};
     SSL := {| Enabled := false; CertFile := "server.crt"; KeyFile := "server.key" |};
     Whitelist := {| IPs := ["192.168.1.1"; "10.0.0.1"] |};
     Blacklist := {| IPs := ["203.0.113.10"] |} |}.

(** Settings in which one address is on both lists. *)
Definition overlapping_lists : Config :=
  {| RateLimiting := {| RequestsPerSecond := 1; BurstLimit := 2 |};
     Timeouts := {| ReadTimeout := 5; WriteTimeout := 10; IdleTimeout := 30 |};
     RequestLimits := {| MaxRequestSize := 1048576 |};
     SSL := {| Enabled := false; CertFile := ""; KeyFile := "" |};
     Whitelist := {| IPs := ["192.168.1.1"; "203.0.113.10"] |};
     Blacklist := {| IPs := ["203.0.113.10"] |} |}.

(** The state of a process that has loaded [cfg] and no domain yet. *)
Definition start (cfg : Config) : State :=
  {| config := cfg; proxyMap := ∅; rateLimiter := ∅; heap := [] |}.

(** A [system.conf] that has a [blacklist] section and nothing else. *)
Definition blacklist_only : FileSystem :=
  {| ReadDir := fun _ => None;
     Load := fun path =>
       if String.eqb path "system.conf"
       then Some (ini_file "blacklist" [("ips", "203.0.113.10")])
       else None |}.

(** A request for [host] from the peer [remote]. *)
Definition request (host remote path query : string) : http.Request :=
  {| http.Host := host;
     http.RemoteAddr := remote;
     http.URL := {| url.Scheme := ""; url.Host := ""; url.Path := path;
                    url.RawQuery := query |};
     http.Header := [("Accept", ["*/*"])];
     http.Body := http.Body_of "" |}.

(** A directory [./list_domain] with the given files, each holding one
    [backend_url]; a file listed with [None] does not load. *)
Definition list_domain (files : list (string * option string)) : FileSystem :=
  {| ReadDir := fun d =>
       if String.eqb d "./list_domain" then Some (fst <$> files) else None;
     Load := fun path =>
       match List.find (fun f => String.eqb (filepath.Join "./list_domain" (fst f)) path)
                       files with
       | Some (_, Some backend) => Some (ini_file "proxy" [("backend_url", backend)])
       | _ => None
       end |}.

End sample.

(** * Properties *)

(** ** The library functions on the inputs the program sees *)

Example SplitHostPort_ipv4 :
  net.SplitHostPort "192.168.1.1:5555" = Some ("192.168.1.1", "5555").
Proof. reflexivity. Qed.

Example SplitHostPort_ipv6 : net.SplitHostPort "[::1]:80" = Some ("::1", "80").
Proof. reflexivity. Qed.

Example SplitHostPort_empty_host : net.SplitHostPort ":80" = Some ("", "80").
Proof. reflexivity. Qed.

Example SplitHostPort_too_many_colons : net.SplitHostPort "::1:80" = None.
Proof. reflexivity. Qed.

Example SplitHostPort_missing_port : net.SplitHostPort "localhost" = None.
Proof. reflexivity. Qed.

Example Split_empty : strings.Split "" "," = [""].
Proof. reflexivity. Qed.

Example Split_list : strings.Split "192.168.1.1,10.0.0.1" "," = ["192.168.1.1"; "10.0.0.1"].
Proof. reflexivity. Qed.

Example domain_of_file_name :
  strings.TrimSuffix "example.com.conf" (filepath.Ext "example.com.conf") = "example.com".
Proof. reflexivity. Qed.

Example Ext_without_dot : filepath.Ext "README" = "".
Proof. reflexivity. Qed.

(** ** Membership tests of the IP filter *)

(** The loop over an IP list finds [ip] exactly when the list holds it. *)
Lemma existsb_eqb_elem_of (ip : string) (l : list string) :
  existsb (fun x => String.eqb x ip) l = true <-> ip ∈ l.
Proof.
  induction l as [|x l IH]; simpl.
  - split; [discriminate | by intros ?%elem_of_nil].
  - rewrite orb_true_iff, IH, elem_of_cons, String.eqb_eq.
    split; (intros [->|?]; [by left | by right]).
Qed.

Lemma existsb_eqb_not_elem_of (ip : string) (l : list string) :
  existsb (fun x => String.eqb x ip) l = false <-> ip ∉ l.
Proof.
  rewrite <- existsb_eqb_elem_of.
  destruct (existsb _ l); split; congruence.
Qed.

(** The IP filter, case by case. *)
Lemma ipFilterMiddleware_spec (next : Handler) r now st ip port :
  net.SplitHostPort (http.RemoteAddr r) = Some (ip, port) ->
  ipFilterMiddleware next r now st =
    if bool_decide (ip ∈ IPs (Blacklist (config st)))
    then (http_Error "Forbidden" http.StatusForbidden, st)
    else if bool_decide (ip ∈ IPs (Whitelist (config st)))
         then next r now st
         else (http_Error "Unauthorized" http.StatusUnauthorized, st).
Proof.
  intros Hip. unfold ipFilterMiddleware. rewrite Hip.
  case_bool_decide as Hb.
  - apply existsb_eqb_elem_of in Hb. by rewrite Hb.
  - apply existsb_eqb_not_elem_of in Hb. rewrite Hb.
    case_bool_decide as Hw.
    + apply existsb_eqb_elem_of in Hw. by rewrite Hw.
    + apply existsb_eqb_not_elem_of in Hw. by rewrite Hw.
Qed.

(** The rate limiter stage, case by case. *)
Lemma rateLimitMiddleware_spec (next : Handler) r now st ip port ok st1 :
  net.SplitHostPort (http.RemoteAddr r) = Some (ip, port) ->
  rateLimit ip now st = (ok, st1) ->
  rateLimitMiddleware next r now st =
    if ok then next r now st1
    else (http_Error "Too Many Requests" http.StatusTooManyRequests, st1).
Proof.
  intros Hip Hrl. unfold rateLimitMiddleware. rewrite Hip, Hrl. by destruct ok.
Qed.

(** The server's handler, stage by stage. *)
Lemma serverHandler_spec r now st ip port ok st1 :
  net.SplitHostPort (http.RemoteAddr r) = Some (ip, port) ->
  rateLimit ip now st = (ok, st1) ->
  serverHandler r now st =
    if negb ok then (http_Error "Too Many Requests" http.StatusTooManyRequests, st1)
    else if bool_decide (ip ∈ IPs (Blacklist (config st1)))
    then (http_Error "Forbidden" http.StatusForbidden, st1)
    else if negb (bool_decide (ip ∈ IPs (Whitelist (config st1))))
    then (http_Error "Unauthorized" http.StatusUnauthorized, st1)
    else proxyHandler
           (http.with_Body r (http.MaxBytesReader (http.Body r)
                                (MaxRequestSize (RequestLimits (config st1)))))
           now st1.
Proof.
  intros Hip Hrl. unfold serverHandler.
  rewrite (rateLimitMiddleware_spec _ _ _ _ _ _ _ _ Hip Hrl).
  destruct ok; simpl; [|done].
  rewrite (ipFilterMiddleware_spec _ _ _ _ _ _ Hip).
  destruct (bool_decide (ip ∈ IPs (Blacklist (config st1)))); [done|].
  by destruct (bool_decide (ip ∈ IPs (Whitelist (config st1)))).
Qed.

(** C4: a request whose client IP is in the blacklist is answered 403 by the
    IP filter, whatever the whitelist holds and whatever handler comes next:
    the blacklist loop returns before the whitelist loop starts. *)
Theorem blacklisted_ip_is_forbidden (next : Handler) r now st ip port :
  net.SplitHostPort (http.RemoteAddr r) = Some (ip, port) ->
  ip ∈ IPs (Blacklist (config st)) ->
  ipFilterMiddleware next r now st =
    (http_Error "Forbidden" http.StatusForbidden, st).
Proof.
  intros Hip Hb. rewrite (ipFilterMiddleware_spec _ _ _ _ _ _ Hip).
  by rewrite bool_decide_eq_true_2.
Qed.

(** C5: a request whose client IP is neither in the blacklist nor in the
    whitelist is answered 401 by the IP filter. *)
Theorem unlisted_ip_is_unauthorized (next : Handler) r now st ip port :
  net.SplitHostPort (http.RemoteAddr r) = Some (ip, port) ->
  ip ∉ IPs (Blacklist (config st)) ->
  ip ∉ IPs (Whitelist (config st)) ->
  ipFilterMiddleware next r now st =
    (http_Error "Unauthorized" http.StatusUnauthorized, st).
Proof.
  intros Hip Hb Hw. rewrite (ipFilterMiddleware_spec _ _ _ _ _ _ Hip).
  by rewrite !bool_decide_eq_false_2.
Qed.

(** C6: the server's handler runs rate limiting, then the IP filter, then
    the body cap, then dispatch.  Each stage that rejects answers without
    calling the handler after it (its answer is the same for every [next]),
    and a rate-limited request from a blacklisted IP gets 429. *)
Theorem pipeline_order r now st ip port ok st1 :
  net.SplitHostPort (http.RemoteAddr r) = Some (ip, port) ->
  rateLimit ip now st = (ok, st1) ->
  let blacklisted := bool_decide (ip ∈ IPs (Blacklist (config st1))) in
  let whitelisted := bool_decide (ip ∈ IPs (Whitelist (config st1))) in
  let capped :=
    http.with_Body r (http.MaxBytesReader (http.Body r)
                        (MaxRequestSize (RequestLimits (config st1)))) in
  (forall next, rateLimitMiddleware next r now st =
     if ok then next r now st1
     else (http_Error "Too Many Requests" http.StatusTooManyRequests, st1)) /\
  (forall next, ipFilterMiddleware next r now st1 =
     if blacklisted then (http_Error "Forbidden" http.StatusForbidden, st1)
     else if whitelisted then next r now st1
     else (http_Error "Unauthorized" http.StatusUnauthorized, st1)) /\
  (forall next, limitRequestSizeMiddleware next r now st1 = next capped now st1) /\
  serverHandler r now st =
    (if negb ok then (http_Error "Too Many Requests" http.StatusTooManyRequests, st1)
     else if blacklisted then (http_Error "Forbidden" http.StatusForbidden, st1)
     else if negb whitelisted
          then (http_Error "Unauthorized" http.StatusUnauthorized, st1)
          else proxyHandler capped now st1) /\
  (ok = false -> ip ∈ IPs (Blacklist (config st1)) ->
   serverHandler r now st =
     (http_Error "Too Many Requests" http.StatusTooManyRequests, st1)).
Proof.
  intros Hip Hrl blacklisted whitelisted capped.
  pose proof (serverHandler_spec r now st ip port ok st1 Hip Hrl) as Hserver.
  split; [|split; [|split; [|split]]].
  - intros next. by eapply rateLimitMiddleware_spec.
  - intros next. by eapply ipFilterMiddleware_spec.
  - intros next. reflexivity.
  - exact Hserver.
  - intros -> _. by rewrite Hserver.
Qed.

Lemma blacklisted_ip_is_forbidden_witness :
  let st := sample.start sample.overlapping_lists in
  "203.0.113.10" ∈ IPs (Whitelist (config st)) /\
  ipFilterMiddleware proxyHandler
    (sample.request "example.com" "203.0.113.10:4711" "/" "") 0%Z st =
    (http_Error "Forbidden" http.StatusForbidden, st).
Proof.
  split.
  - apply existsb_eqb_elem_of. reflexivity.
  - apply (blacklisted_ip_is_forbidden _ _ _ _ "203.0.113.10" "4711").
    + reflexivity.
    + apply existsb_eqb_elem_of. reflexivity.
Defined.

Lemma unlisted_ip_is_unauthorized_witness :
  ipFilterMiddleware proxyHandler
    (sample.request "example.com" "198.51.100.7:4711" "/" "") 0%Z
    (sample.start sample.system_conf) =
    (http_Error "Unauthorized" http.StatusUnauthorized,
     sample.start sample.system_conf).
Proof.
  apply (unlisted_ip_is_unauthorized _ _ _ _ "198.51.100.7" "4711").
  - reflexivity.
  - apply existsb_eqb_not_elem_of. reflexivity.
  - apply existsb_eqb_not_elem_of. reflexivity.
Defined.

Lemma pipeline_order_witness :
  let r := sample.request "example.com" "203.0.113.10:4711" "/" "" in
  let st := (serve serverHandler 0%Z [r; r] (sample.start sample.overlapping_lists)).2 in
  "203.0.113.10" ∈ IPs (Blacklist (config st)) /\
  serverHandler r 0%Z st =
    (http_Error "Too Many Requests" http.StatusTooManyRequests, st).
Proof.
  intros r st.
  assert (Hb : "203.0.113.10" ∈ IPs (Blacklist (config st)))
    by (apply existsb_eqb_elem_of; reflexivity).
  split; [exact Hb|].
  assert (Hip : net.SplitHostPort (http.RemoteAddr r) = Some ("203.0.113.10", "4711"))
    by reflexivity.
  assert (Hrl : rateLimit "203.0.113.10" 0%Z st = (false, st))
    by (vm_compute; reflexivity).
  exact (proj2 (proj2 (proj2 (proj2
           (pipeline_order r 0%Z st _ _ false st Hip Hrl)))) eq_refl Hb).
Defined.

(** ** Forwarding *)

(** C7: for a backend URL that parses, the director sets the outbound
    request's scheme and host to the backend's and leaves path, query
    string, headers and body as they were: a request for [/a/b?x=1] goes to
    [scheme://host/a/b?x=1]. *)
Theorem director_rewrites_scheme_and_host
    (url_Parse : string -> option url.URL) target u req :
  url_Parse target = Some u ->
  exists out,
    Director (newReverseProxy url_Parse target) req = Some out /\
    url.Scheme (http.URL out) = url.Scheme u /\
    url.Host (http.URL out) = url.Host u /\
    url.Path (http.URL out) = url.Path (http.URL req) /\
    url.RawQuery (http.URL out) = url.RawQuery (http.URL req) /\
    http.Header out = http.Header req /\
    http.Body out = http.Body req /\
    http.Host out = http.Host req /\
    http.RemoteAddr out = http.RemoteAddr req /\
    (url.Path (http.URL req) = "/a/b" -> url.RawQuery (http.URL req) = "x=1" ->
     http.URL out = {| url.Scheme := url.Scheme u; url.Host := url.Host u;
                       url.Path := "/a/b"; url.RawQuery := "x=1" |}).
Proof.
  intros Hparse. simpl. rewrite Hparse. eexists; split; [reflexivity|].
  simpl. repeat split; try reflexivity.
  intros Hpath Hquery. unfold url.with_Host, url.with_Scheme. simpl.
  by rewrite Hpath, Hquery.
Qed.

Lemma director_rewrites_scheme_and_host_witness :
  Director (newReverseProxy sample.url_Parse "http://10.0.0.5:9000")
    (sample.request "example.com" "192.168.1.1:4711" "/a/b" "x=1") =
  Some {| http.Host := "example.com";
          http.RemoteAddr := "192.168.1.1:4711";
          http.URL := {| url.Scheme := "http"; url.Host := "10.0.0.5:9000";
                         url.Path := "/a/b"; url.RawQuery := "x=1" |};
          http.Header := [("Accept", ["*/*"])];
          http.Body := http.Body_of "" |}.
Proof.
  destruct (director_rewrites_scheme_and_host sample.url_Parse
              "http://10.0.0.5:9000"
              {| url.Scheme := "http"; url.Host := "10.0.0.5:9000";
                 url.Path := ""; url.RawQuery := "" |}
              (sample.request "example.com" "192.168.1.1:4711" "/a/b" "x=1")
              eq_refl)
    as (out & Hout & _).
  rewrite Hout. injection Hout as <-. reflexivity.
Defined.

(** ** Settings *)

(** The rate limiter reads the settings and the routing table and leaves
    both alone. *)
Lemma rateLimit_frame ip now st ok st1 :
  rateLimit ip now st = (ok, st1) ->
  config st1 = config st /\ proxyMap st1 = proxyMap st.
Proof.
  unfold rateLimit, getRateLimiter, Allow.
  destruct (rateLimiter st !! ip); simpl;
    repeat case_match; intros; simplify_eq; done.
Qed.

(** C10, amended: a [whitelist.ips] (or [blacklist.ips]) key that is empty
    or missing is stored as the list of one empty string.  With such a
    whitelist every request that passes rate limiting and whose client IP is
    not the empty string is denied: with 403 when the IP is in the blacklist,
    with 401 otherwise. *)
Theorem empty_whitelist_denies filePath fs st cfg :
  Load fs filePath = Some cfg ->
  ini.KeyString cfg "whitelist" "ips" = "" ->
  let st' := (loadConfig filePath fs st).2 in
  IPs (Whitelist (config st')) = [""] /\
  (ini.KeyString cfg "blacklist" "ips" = "" -> IPs (Blacklist (config st')) = [""]) /\
  forall r now ip port st1,
    net.SplitHostPort (http.RemoteAddr r) = Some (ip, port) ->
    ip <> "" ->
    rateLimit ip now st' = (true, st1) ->
    serverHandler r now st' =
      (if bool_decide (ip ∈ IPs (Blacklist (config st')))
       then http_Error "Forbidden" http.StatusForbidden
       else http_Error "Unauthorized" http.StatusUnauthorized, st1).
Proof.
  intros Hload Hwhite st'.
  assert (Hw : IPs (Whitelist (config st')) = [""]).
  { unfold st', loadConfig. rewrite Hload. simpl. by rewrite Hwhite. }
  split; [exact Hw|]. split.
  { intros Hblack. unfold st', loadConfig. rewrite Hload. simpl. by rewrite Hblack. }
  intros r now ip port st1 Hip Hne Hrl.
  rewrite (serverHandler_spec r now st' ip port true st1 Hip Hrl). simpl.
  destruct (rateLimit_frame _ _ _ _ _ Hrl) as [-> _].
  destruct (bool_decide (ip ∈ IPs (Blacklist (config st')))); [done|].
  rewrite bool_decide_eq_false_2; [done|].
  rewrite Hw. by intros ->%list_elem_of_singleton.
Qed.

Lemma empty_whitelist_denies_witness :
  let st := (loadConfig "system.conf" sample.blacklist_only initial).2 in
  IPs (Whitelist (config st)) = [""] /\
  fst (serverHandler (sample.request "example.com" "198.51.100.7:4711" "/" "") 0%Z st) =
    http_Error "Unauthorized" http.StatusUnauthorized.
Proof.
  intros st.
  destruct (empty_whitelist_denies "system.conf" sample.blacklist_only initial
              (sample.ini_file "blacklist" [("ips", "203.0.113.10")])
              eq_refl eq_refl) as (Hw & _ & Hdeny).
  split; [exact Hw|].
  fold st in Hdeny.
  rewrite (Hdeny (sample.request "example.com" "198.51.100.7:4711" "/" "") 0%Z
             "198.51.100.7" "4711"
             (rateLimit "198.51.100.7" 0%Z st).2
             eq_refl ltac:(discriminate) eq_refl).
  reflexivity.
Defined.

(** C10 as stated fails twice: with an empty whitelist a request from a
    blacklisted address passes rate limiting and is answered 403, not 401;
    and [net.SplitHostPort] accepts [":8080"] with an empty host, which the
    list of one empty string lets through to dispatch. *)
Lemma empty_whitelist_not_always_401 :
  let st := (loadConfig "system.conf" sample.blacklist_only initial).2 in
  IPs (Whitelist (config st)) = [""] /\
  fst (rateLimit "203.0.113.10" 0%Z st) = true /\
  fst (serverHandler (sample.request "example.com" "203.0.113.10:4711" "/" "") 0%Z st) =
    http_Error "Forbidden" http.StatusForbidden /\
  net.SplitHostPort ":8080" = Some ("", "8080") /\
  fst (rateLimit "" 0%Z st) = true /\
  fst (serverHandler (sample.request "example.com" ":8080" "/" "") 0%Z st) =
    http_Error "Domain not found" http.StatusNotFound.
Proof. vm_compute. repeat split. Qed.

(** ** Reloading the routing table *)

Section DomainsFacts.

Variable url_Parse : string -> option url.URL.

(** One pass of the loop touches at most the entry of its own file. *)
Lemma loadDomain_other fs directory table name d :
  strings.TrimSuffix name (filepath.Ext name) <> d ->
  loadDomain url_Parse fs directory table name !! d = table !! d.
Proof.
  intros Hne. unfold loadDomain.
  destruct (String.eqb _ _); [|done].
  destruct (Load fs _); [|done].
  by rewrite lookup_insert_ne.
Qed.

(** One pass of the loop never removes an entry. *)
Lemma loadDomain_is_Some fs directory table name d :
  is_Some (table !! d) ->
  is_Some (loadDomain url_Parse fs directory table name !! d).
Proof.
  intros Hd. unfold loadDomain.
  destruct (String.eqb _ _); [|done].
  destruct (Load fs _); [|done].
  rewrite lookup_insert. by case_decide.
Qed.

Lemma fold_loadDomain_other fs directory files table d :
  (forall name, name ∈ files -> strings.TrimSuffix name (filepath.Ext name) <> d) ->
  fold_left (loadDomain url_Parse fs directory) files table !! d = table !! d.
Proof.
  revert table. induction files as [|name files IH]; intros table Hfiles; [done|].
  simpl. rewrite IH.
  - apply loadDomain_other, Hfiles. by left.
  - intros other Hother. apply Hfiles. by right.
Qed.

Lemma fold_loadDomain_is_Some fs directory files table d :
  is_Some (table !! d) ->
  is_Some (fold_left (loadDomain url_Parse fs directory) files table !! d).
Proof.
  revert table. induction files as [|name files IH]; intros table Hd; [done|].
  simpl. by apply IH, loadDomain_is_Some.
Qed.

(** A reload never shrinks the routing table. *)
Lemma loadDomains_is_Some directory fs st d :
  is_Some (proxyMap st !! d) ->
  is_Some (proxyMap (loadDomains url_Parse directory fs st).2 !! d).
Proof.
  intros Hd. unfold loadDomains.
  destruct (ReadDir fs directory); [|done].
  simpl. by apply fold_loadDomain_is_Some.
Qed.

(** C1, at the input where the code departs from it: a domain that is in
    the table and has no definition file in the directory any more is still
    in the table after [loadDomains], with the handler it had, and a request
    for it is dispatched instead of answered 404. *)
Theorem reload_keeps_stale_domains directory fs st files d proxy :
  ReadDir fs directory = Some files ->
  proxyMap st !! d = Some proxy ->
  (forall name, name ∈ files -> strings.TrimSuffix name (filepath.Ext name) <> d) ->
  let st' := (loadDomains url_Parse directory fs st).2 in
  proxyMap st' !! d = Some proxy /\
  forall r now, http.Host r = d -> proxyHandler r now st' = (Submit proxy r, st').
Proof.
  intros Hdir Hd Hfiles st'.
  assert (Hd' : proxyMap st' !! d = Some proxy).
  { unfold st', loadDomains. rewrite Hdir. simpl.
    by rewrite fold_loadDomain_other. }
  split; [exact Hd'|].
  intros r now <-. unfold proxyHandler. by rewrite Hd'.
Qed.

(** A proxy made from a backend URL that does not parse holds a nil URL:
    its director panics on every request. *)
Lemma newReverseProxy_nil target req :
  url_Parse target = None ->
  Director (newReverseProxy url_Parse target) req = None.
Proof. intros Hparse. simpl. by rewrite Hparse. Qed.

Lemma fold_loadDomain_last fs directory files table name cfg :
  filepath.Ext name = ".conf" ->
  Load fs (filepath.Join directory name) = Some cfg ->
  (forall other, other ∈ files -> strings.TrimSuffix other (filepath.Ext other) = strings.TrimSuffix name (filepath.Ext name) -> other = name) ->
  name ∈ files \/
    table !! strings.TrimSuffix name (filepath.Ext name) =
      Some (newReverseProxy url_Parse (ini.KeyString cfg "proxy" "backend_url")) ->
  fold_left (loadDomain url_Parse fs directory) files table !! strings.TrimSuffix name (filepath.Ext name) =
    Some (newReverseProxy url_Parse (ini.KeyString cfg "proxy" "backend_url")).
Proof.
  intros Hext Hload. revert table.
  induction files as [|file files IH]; intros table Honly Hin.
  - destruct Hin as [Hin|Hin]; [by apply elem_of_nil in Hin | done].
  - simpl. apply IH.
    + intros other Hother. apply Honly. by right.
    + destruct (decide (file = name)) as [->|Hne].
      * right. unfold loadDomain. rewrite Hext, Hload. simpl.
        by rewrite lookup_insert_eq.
      * destruct Hin as [Hin|Hin].
        -- apply elem_of_cons in Hin as [Hin|Hin]; [congruence | by left].
        -- right. rewrite loadDomain_other; [done|].
           intros Heq. apply Hne, Honly; [by left | done].
Qed.

(** C2, at the input where the code departs from it: a definition file
    that loads but whose backend URL does not parse still gets an entry in
    the routing table; the entry's director dereferences the nil URL. *)
Theorem unparsable_backend_is_inserted directory fs st files name cfg :
  ReadDir fs directory = Some files ->
  name ∈ files ->
  (forall other, other ∈ files -> strings.TrimSuffix other (filepath.Ext other) = strings.TrimSuffix name (filepath.Ext name) -> other = name) ->
  filepath.Ext name = ".conf" ->
  Load fs (filepath.Join directory name) = Some cfg ->
  url_Parse (ini.KeyString cfg "proxy" "backend_url") = None ->
  exists proxy,
    proxyMap (loadDomains url_Parse directory fs st).2 !! strings.TrimSuffix name (filepath.Ext name) = Some proxy /\
    forall req, Director proxy req = None.
Proof.
  intros Hdir Hin Honly Hext Hload Hparse.
  exists (newReverseProxy url_Parse (ini.KeyString cfg "proxy" "backend_url")).
  split.
  - unfold loadDomains. rewrite Hdir. simpl.
    apply fold_loadDomain_last; auto.
  - intros req. by apply newReverseProxy_nil.
Qed.

End DomainsFacts.

Lemma reload_keeps_stale_domains_witness :
  let before := sample.list_domain
    [("new.example.conf", Some "http://10.0.0.6:9000");
     ("old.example.conf", Some "http://10.0.0.5:9000")] in
  let after := sample.list_domain
    [("new.example.conf", Some "http://10.0.0.6:9000")] in
  let st0 := (loadDomains sample.url_Parse "./list_domain" before
                (sample.start sample.system_conf)).2 in
  let st1 := (loadDomains sample.url_Parse "./list_domain" after st0).2 in
  let r := sample.request "old.example" "192.168.1.1:4711" "/" "" in
  ReadDir after "./list_domain" = Some ["new.example.conf"] /\
  proxyHandler r 0%Z st1 =
    (Submit (newReverseProxy sample.url_Parse "http://10.0.0.5:9000") r, st1).
Proof.
  intros before after st0 st1 r. split; [reflexivity|].
  apply (reload_keeps_stale_domains sample.url_Parse "./list_domain" after st0
           ["new.example.conf"] "old.example").
  - reflexivity.
  - vm_compute. reflexivity.
  - intros name ->%list_elem_of_singleton. vm_compute. discriminate.
  - reflexivity.
Defined.

Lemma unparsable_backend_is_inserted_witness :
  let fs := sample.list_domain
    [("bad.example.conf", Some "://nohost");
     ("good.example.conf", Some "http://10.0.0.5:9000")] in
  sample.url_Parse "://nohost" = None /\
  exists proxy,
    proxyMap (loadDomains sample.url_Parse "./list_domain" fs
                (sample.start sample.system_conf)).2 !! "bad.example" = Some proxy /\
    forall req, Director proxy req = None.
Proof.
  intros fs. split; [reflexivity|].
  apply (unparsable_backend_is_inserted sample.url_Parse "./list_domain" fs
           (sample.start sample.system_conf)
           ["bad.example.conf"; "good.example.conf"] "bad.example.conf"
           (sample.ini_file "proxy" [("backend_url", "://nohost")])).
  - reflexivity.
  - by left.
  - intros other Hin. apply elem_of_cons in Hin as [->|Hin]; [done|].
    apply list_elem_of_singleton in Hin as ->. vm_compute. discriminate.
  - reflexivity.
  - reflexivity.
  - reflexivity.
Defined.

(** ** The limiter registry *)

Lemma getRateLimiter_seen ip st l :
  rateLimiter st !! ip = Some l -> getRateLimiter ip st = (l, st).
Proof. intros H. unfold getRateLimiter. by rewrite H. Qed.

Lemma getRateLimiter_unseen ip st :
  rateLimiter st !! ip = None ->
  getRateLimiter ip st =
    (length (heap st),
     {| config := config st;
        proxyMap := proxyMap st;
        rateLimiter := <[ip := length (heap st)]> (rateLimiter st);
        heap := heap st ++ [rate.NewLimiter
                              (RequestsPerSecond (RateLimiting (config st)))
                              (BurstLimit (RateLimiting (config st)))] |}).
Proof. intros H. unfold getRateLimiter. by rewrite H. Qed.

(** After [getRateLimiter ip], the registry holds the returned pointer. *)
Lemma getRateLimiter_registered ip st :
  rateLimiter (getRateLimiter ip st).2 !! ip = Some (getRateLimiter ip st).1.
Proof.
  destruct (rateLimiter st !! ip) as [l|] eqn:H.
  - by rewrite (getRateLimiter_seen _ _ _ H).
  - rewrite (getRateLimiter_unseen _ _ H). simpl. apply lookup_insert_eq.
Qed.

(** A second call gives the same pointer and changes nothing. *)
Lemma getRateLimiter_idem ip st :
  getRateLimiter ip (getRateLimiter ip st).2 = getRateLimiter ip st.
Proof.
  rewrite (getRateLimiter_seen ip _ _ (getRateLimiter_registered ip st)).
  by destruct (getRateLimiter ip st).
Qed.

(** A binding of the registry is never changed by a later call. *)
Lemma getRateLimiter_keeps ip ip' st l :
  rateLimiter st !! ip' = Some l ->
  rateLimiter (getRateLimiter ip st).2 !! ip' = Some l.
Proof.
  intros H'. destruct (rateLimiter st !! ip) as [l0|] eqn:H.
  - by rewrite (getRateLimiter_seen _ _ _ H).
  - rewrite (getRateLimiter_unseen _ _ H). simpl.
    rewrite lookup_insert_ne; [done | congruence].
Qed.

Lemma getRateLimiter_wf ip st :
  registry_wf st -> registry_wf (getRateLimiter ip st).2.
Proof.
  intros (Hin & Hinj & Hsize).
  destruct (rateLimiter st !! ip) as [l0|] eqn:H.
  { by rewrite (getRateLimiter_seen _ _ _ H). }
  rewrite (getRateLimiter_unseen _ _ H). unfold registry_wf. simpl.
  split; [|split].
  - intros ip' l. rewrite lookup_insert, length_app. simpl.
    case_decide; intros Hl; simplify_eq; [lia|].
    apply Hin in Hl. lia.
  - intros ip1 ip2 l. rewrite !lookup_insert.
    repeat case_decide; intros Ha Hb; simplify_eq; try done.
    + apply Hin in Hb. lia.
    + apply Hin in Ha. lia.
    + by eapply Hinj.
  - rewrite length_app, map_size_insert_None by done. simpl. lia.
Qed.

Lemma acquire_all_spec ips st :
  registry_wf st ->
  registry_wf (acquire_all ips st).2 /\
  (forall ip l, rateLimiter st !! ip = Some l ->
                rateLimiter (acquire_all ips st).2 !! ip = Some l) /\
  Forall2 (fun ip l => rateLimiter (acquire_all ips st).2 !! ip = Some l)
          ips (acquire_all ips st).1.
Proof.
  revert st. induction ips as [|ip ips IH]; intros st Hwf; simpl.
  { split; [done|]. split; [done|]. constructor. }
  pose proof (getRateLimiter_wf ip st Hwf) as Hwf1.
  pose proof (getRateLimiter_registered ip st) as Hreg.
  pose proof (fun ip' l => getRateLimiter_keeps ip ip' st l) as Hkeep.
  destruct (getRateLimiter ip st) as [l st1]. simpl in *.
  destruct (IH st1 Hwf1) as (Hwf2 & Hkeep2 & Hall).
  destruct (acquire_all ips st1) as [ls st2]. simpl in *.
  split; [done|]. split.
  - intros ip' l' H'. by apply Hkeep2, Hkeep.
  - constructor; [by apply Hkeep2 | done].
Qed.

(** Serving a request keeps the registry well formed, so every state the
    server reaches from [initial] is. *)
Lemma rateLimit_wf ip now st :
  registry_wf st -> registry_wf (rateLimit ip now st).2.
Proof.
  intros Hwf. unfold rateLimit.
  pose proof (getRateLimiter_wf ip st Hwf) as Hwf1.
  destruct (getRateLimiter ip st) as [l st1]. simpl in *.
  unfold Allow. destruct (heap st1 !! l); [|done].
  destruct (rate.Allow _ now) as [ok lim']. unfold registry_wf in *. simpl.
  by rewrite length_insert.
Qed.

(** C8: [getRateLimiter] returns the limiter registered for the client and
    creates it, full, on the first call only; a second call for the same
    client returns the same pointer and changes nothing; the other clients'
    entries are never touched.  Over any sequence of calls on a well-formed
    registry every call for one client returns the one pointer registered
    for it, different clients get different limiters, and the heap holds
    exactly one limiter per registered client. *)
Theorem getRateLimiter_once ip st :
  (rateLimiter st !! ip = None ->
   (getRateLimiter ip st).1 = length (heap st) /\
   heap (getRateLimiter ip st).2 =
     (heap st ++ [rate.NewLimiter (RequestsPerSecond (RateLimiting (config st)))
                                  (BurstLimit (RateLimiting (config st)))])%list /\
   rateLimiter (getRateLimiter ip st).2 =
     <[ip := length (heap st)]> (rateLimiter st)) /\
  (forall l, rateLimiter st !! ip = Some l -> getRateLimiter ip st = (l, st)) /\
  getRateLimiter ip (getRateLimiter ip st).2 = getRateLimiter ip st /\
  (forall ip', ip' <> ip ->
     rateLimiter (getRateLimiter ip st).2 !! ip' = rateLimiter st !! ip') /\
  forall ips,
    registry_wf st ->
    let ls := (acquire_all ips st).1 in
    let st' := (acquire_all ips st).2 in
    registry_wf st' /\
    length (heap st') = size (rateLimiter st') /\
    (forall i j ip1 ip2 l1 l2,
       ips !! i = Some ip1 -> ips !! j = Some ip2 ->
       ls !! i = Some l1 -> ls !! j = Some l2 ->
       (ip1 = ip2 <-> l1 = l2)).
Proof.
  split; [|split; [|split; [|split]]].
  - intros H. by rewrite (getRateLimiter_unseen _ _ H).
  - intros l H. by apply getRateLimiter_seen.
  - apply getRateLimiter_idem.
  - intros ip' Hne. destruct (rateLimiter st !! ip) as [l0|] eqn:H.
    + by rewrite (getRateLimiter_seen _ _ _ H).
    + rewrite (getRateLimiter_unseen _ _ H). simpl. by rewrite lookup_insert_ne.
  - intros ips Hwf ls st'.
    destruct (acquire_all_spec ips st Hwf) as (Hwf' & _ & Hall).
    pose proof Hwf' as (_ & Hinj & Hsize).
    fold st' ls in Hwf', Hinj, Hsize, Hall. split; [done|]. split; [done|].
    intros i j ip1 ip2 l1 l2 Hi Hj Hli Hlj.
    pose proof (Forall2_lookup_lr _ _ _ _ _ _ Hall Hi Hli) as H1.
    pose proof (Forall2_lookup_lr _ _ _ _ _ _ Hall Hj Hlj) as H2.
    simpl in H1, H2. split.
    + intros ->. congruence.
    + intros ->. by eapply Hinj.
Qed.

Lemma initial_wf : registry_wf initial.
Proof.
  split; [|split]; [intros ip l | intros ip ip' l | done];
    unfold initial; simpl; by rewrite lookup_empty.
Qed.

Lemma getRateLimiter_once_witness :
  acquire_all ["192.168.1.1"; "10.0.0.1"; "192.168.1.1"] initial =
    ([0; 1; 0],
     {| config := config initial;
        proxyMap := ∅;
        rateLimiter := <["10.0.0.1" := 1]> (<["192.168.1.1" := 0]> ∅);
        heap := [rate.NewLimiter 0 0; rate.NewLimiter 0 0] |}) /\
  forall i j ip1 ip2 l1 l2,
    ["192.168.1.1"; "10.0.0.1"; "192.168.1.1"] !! i = Some ip1 ->
    ["192.168.1.1"; "10.0.0.1"; "192.168.1.1"] !! j = Some ip2 ->
    (acquire_all ["192.168.1.1"; "10.0.0.1"; "192.168.1.1"] initial).1 !! i = Some l1 ->
    (acquire_all ["192.168.1.1"; "10.0.0.1"; "192.168.1.1"] initial).1 !! j = Some l2 ->
    (ip1 = ip2 <-> l1 = l2).
Proof.
  split; [vm_compute; reflexivity|].
  exact (proj2 (proj2
           (proj2 (proj2 (proj2 (proj2
              (getRateLimiter_once "192.168.1.1" initial))))
              ["192.168.1.1"; "10.0.0.1"; "192.168.1.1"] initial_wf))).
Defined.

(** ** The token bucket *)

Lemma token_pos : (0 < rate.token)%Z.
Proof. reflexivity. Qed.

Lemma advance_le lim now : (rate.advance lim now <= rate.burst lim * rate.token)%Z.
Proof. unfold rate.advance. lia. Qed.

(** A bucket with a whole token gives it out, and holds one token less at
    the same instant. *)
Lemma rate_Allow_true lim now :
  (rate.token <= rate.advance lim now)%Z ->
  exists lim',
    rate.Allow lim now = (true, lim') /\
    rate.advance lim' now = (rate.advance lim now - rate.token)%Z.
Proof.
  intros Hk. unfold rate.Allow.
  destruct (Z.leb_spec rate.token (rate.advance lim now)) as [_|?]; [|lia].
  eexists; split; [reflexivity|].
  pose proof (advance_le lim now). pose proof token_pos.
  unfold rate.advance at 1. simpl. lia.
Qed.

(** A bucket without a whole token denies and is left as it was. *)
Lemma rate_Allow_false lim now :
  (rate.advance lim now < rate.token)%Z ->
  rate.Allow lim now = (false, lim).
Proof.
  intros Hk. unfold rate.Allow.
  destruct (Z.leb_spec rate.token (rate.advance lim now)); [lia | done].
Qed.

(** A denied attempt changes nothing: the limiter keeps its tokens. *)
Lemma Allow_denied_unchanged l now st st' :
  Allow l now st = (false, st') -> st' = st.
Proof.
  unfold Allow. destruct (heap st !! l) as [lim|] eqn:Hl; [|congruence].
  unfold rate.Allow.
  destruct (rate.token <=? rate.advance lim now)%Z; simpl; [congruence|].
  intros [= <-]. destruct st. simpl in *. f_equal. by apply list_insert_id.
Qed.

(** A new bucket is full at its first use, for a rate that is not
    negative. *)
Lemma advance_NewLimiter r b now :
  (0 <= r)%Z -> rate.advance (rate.NewLimiter r b) now = (b * rate.token)%Z.
Proof. intros Hr. unfold rate.advance, rate.NewLimiter. simpl. nia. Qed.

Lemma bucket_at_unseen ip now st :
  rateLimiter st !! ip = None ->
  (0 <= RequestsPerSecond (RateLimiting (config st)))%Z ->
  bucket_at ip now st (BurstLimit (RateLimiting (config st)) * rate.token).
Proof.
  intros Hnew Hr. unfold bucket_at.
  rewrite (getRateLimiter_unseen _ _ Hnew). simpl.
  eexists. split.
  - rewrite lookup_app_r by done. by rewrite Nat.sub_diag.
  - by apply advance_NewLimiter.
Qed.

Lemma rateLimit_allowed ip now st k :
  bucket_at ip now st k ->
  (rate.token <= k)%Z ->
  exists st1,
    rateLimit ip now st = (true, st1) /\
    bucket_at ip now st1 (k - rate.token) /\
    config st1 = config st.
Proof.
  intros (lim & Hl & Hk) Htok. unfold rateLimit.
  pose proof (getRateLimiter_registered ip st) as Hreg.
  assert (Hcfg : config (getRateLimiter ip st).2 = config st).
  { unfold getRateLimiter. by destruct (rateLimiter st !! ip). }
  destruct (getRateLimiter ip st) as [l st0]. simpl in *.
  destruct (rate_Allow_true lim now) as (lim' & Hallow & Hadv); [lia|].
  unfold Allow. rewrite Hl, Hallow.
  eexists. split; [reflexivity|]. split; [|done].
  unfold bucket_at. erewrite getRateLimiter_seen by exact Hreg. simpl.
  exists lim'. split; [|lia].
  apply list_lookup_insert_eq. by eapply lookup_lt_Some.
Qed.

Lemma rateLimit_denied ip now st k :
  bucket_at ip now st k ->
  (k < rate.token)%Z ->
  rateLimit ip now st = (false, (getRateLimiter ip st).2).
Proof.
  intros (lim & Hl & Hk) Htok. unfold rateLimit.
  destruct (getRateLimiter ip st) as [l st0]. simpl in *.
  unfold Allow. rewrite Hl, rate_Allow_false by lia.
  destruct st0. simpl in *. do 2 f_equal. by apply list_insert_id.
Qed.

(** What the server's handler returns, by the rate limiter's answer: the
    stages after the rate limiter never answer 429 and never change the
    state. *)
Lemma serverHandler_rateLimit r now st ip port ok st1 :
  net.SplitHostPort (http.RemoteAddr r) = Some (ip, port) ->
  rateLimit ip now st = (ok, st1) ->
  (serverHandler r now st).2 = st1 /\
  (status (serverHandler r now st).1 = Some http.StatusTooManyRequests <-> ok = false).
Proof.
  intros Hip Hrl.
  rewrite (serverHandler_spec r now st ip port ok st1 Hip Hrl).
  destruct ok; simpl.
  - unfold proxyHandler.
    repeat (case_match; simpl); split; try done; split; discriminate.
  - done.
Qed.

Section Burst.

Variables (r : http.Request) (now : rate.Time) (ip port : string).
Hypothesis Hip : net.SplitHostPort (http.RemoteAddr r) = Some (ip, port).

(** [k] requests at one instant against a bucket holding [k] tokens: none
    is answered 429, and the bucket is empty afterwards. *)
Lemma serve_burst (k : nat) st :
  bucket_at ip now st (Z.of_nat k * rate.token) ->
  length (serve serverHandler now (repeat r k) st).1 = k /\
  Forall (fun o => status o <> Some http.StatusTooManyRequests)
         (serve serverHandler now (repeat r k) st).1 /\
  bucket_at ip now (serve serverHandler now (repeat r k) st).2 0 /\
  config (serve serverHandler now (repeat r k) st).2 = config st.
Proof.
  pose proof token_pos as Htok.
  revert st. induction k as [|k IH]; intros st Hb.
  { simpl. split; [done|]. split; [constructor|]. by split. }
  destruct (rateLimit_allowed ip now st _ Hb) as (st1 & Hrl & Hb1 & Hcfg1); [nia|].
  destruct (serverHandler_rateLimit r now st ip port true st1 Hip Hrl) as [Hst Hok].
  replace (Z.of_nat (S k) * rate.token - rate.token)%Z
    with (Z.of_nat k * rate.token)%Z in Hb1 by lia.
  destruct (IH st1 Hb1) as (Hlen & Hall & Hb' & Hcfg').
  simpl. destruct (serverHandler r now st) as [o st1']. simpl in *. subst st1'.
  destruct (serve serverHandler now (repeat r k) st1) as [os st2]. simpl in *.
  split; [by rewrite Hlen|]. split; [|split; [done | congruence]].
  constructor; [|done]. intros Ho. apply Hok in Ho. discriminate.
Qed.

End Burst.

(** C3: a client not seen before gets a bucket that holds [burst_limit]
    tokens.  Of the requests it sends at one instant the first [burst_limit]
    pass the rate limiter (none is answered 429) and the next is answered
    429; a denied attempt leaves the limiter, and so its tokens, unchanged. *)
Theorem burst_then_too_many_requests r now st ip port :
  net.SplitHostPort (http.RemoteAddr r) = Some (ip, port) ->
  rateLimiter st !! ip = None ->
  (0 <= RequestsPerSecond (RateLimiting (config st)))%Z ->
  let burst_limit := BurstLimit (RateLimiting (config st)) in
  let first := serve serverHandler now (repeat r (Z.to_nat burst_limit)) st in
  let next := serverHandler r now first.2 in
  heap (getRateLimiter ip st).2 !! (getRateLimiter ip st).1 =
    Some {| rate.limit := RequestsPerSecond (RateLimiting (config st));
            rate.burst := burst_limit;
            rate.tokens := burst_limit * rate.token;
            rate.last := 0%Z |} /\
  length first.1 = Z.to_nat burst_limit /\
  Forall (fun o => status o <> Some http.StatusTooManyRequests) first.1 /\
  next.1 = http_Error "Too Many Requests" http.StatusTooManyRequests /\
  next.2 = (getRateLimiter ip first.2).2 /\
  (forall l st0 st1, Allow l now st0 = (false, st1) -> st1 = st0).
Proof.
  intros Hip Hnew Hr burst_limit first next.
  pose proof token_pos as Htok.
  assert (Hfirst : length first.1 = Z.to_nat burst_limit /\
            Forall (fun o => status o <> Some http.StatusTooManyRequests) first.1 /\
            exists k, bucket_at ip now first.2 k /\ (k < rate.token)%Z).
  { pose proof (bucket_at_unseen ip now st Hnew Hr) as Hb. fold burst_limit in Hb.
    destruct (Z_lt_le_dec burst_limit 0) as [Hneg|Hpos].
    - unfold first. replace (Z.to_nat burst_limit) with 0%nat by lia. simpl.
      split; [done|]. split; [constructor|].
      exists (burst_limit * rate.token)%Z. split; [done | nia].
    - replace (burst_limit * rate.token)%Z
        with (Z.of_nat (Z.to_nat burst_limit) * rate.token)%Z in Hb by lia.
      destruct (serve_burst r now ip port Hip _ st Hb) as (Hlen & Hall & Hb' & _).
      split; [done|]. split; [done|]. exists 0%Z. by split. }
  destruct Hfirst as (Hlen & Hall & k & Hb' & Hk).
  pose proof (rateLimit_denied ip now first.2 k Hb' Hk) as Hrl.
  destruct (serverHandler_rateLimit r now first.2 ip port false _ Hip Hrl) as [Hst Hok].
  pose proof (serverHandler_spec r now first.2 ip port false _ Hip Hrl) as Hs.
  split; [|split; [done|split; [done|split; [|split; [done|]]]]].
  - rewrite (getRateLimiter_unseen _ _ Hnew). simpl.
    rewrite lookup_app_r by done. by rewrite Nat.sub_diag.
  - unfold next. by rewrite Hs.
  - intros l st0 st1. apply Allow_denied_unchanged.
Qed.

Lemma burst_then_too_many_requests_witness :
  let r := sample.request "example.com" "192.168.1.1:4711" "/" "" in
  let st := sample.start sample.system_conf in
  let first := serve serverHandler 1000%Z (repeat r 5) st in
  first.1 = repeat (http_Error "Domain not found" http.StatusNotFound) 5 /\
  Forall (fun o => status o <> Some http.StatusTooManyRequests) first.1 /\
  (serverHandler r 1000%Z first.2).1 =
    http_Error "Too Many Requests" http.StatusTooManyRequests /\
  (serverHandler r 1000%Z first.2).2 = first.2.
Proof.
  intros r st first.
  destruct (burst_then_too_many_requests r 1000%Z st "192.168.1.1" "4711"
              eq_refl eq_refl Z.le_0_1)
    as (_ & _ & Hall & Hnext & _ & _).
  split; [vm_compute; reflexivity|].
  split; [exact Hall|]. split; [exact Hnext|].
  vm_compute. reflexivity.
Defined.

(** ** The worker pool *)

Lemma length_running_le (ws : list (option pool.Task)) :
  length (omap id ws) <= length ws.
Proof.
  induction ws as [|[t|] ws IH]; unfold omap in *; simpl; lia.
Qed.

Lemma initWorkerPool_inv numWorkers : pool_inv numWorkers (pool.initWorkerPool numWorkers).
Proof.
  unfold pool_inv. simpl. rewrite length_replicate.
  split; [done|]. split; [done|]. lia.
Qed.

Lemma step_inv numWorkers p e p' :
  pool_inv numWorkers p -> pool.step p e = Some p' -> pool_inv numWorkers p'.
Proof.
  intros (Hcap & Hws & Hbuf). unfold pool_inv. destruct e as [task|i|i]; simpl.
  - destruct (Nat.ltb_spec (length (pool.buffer p)) (pool.capacity p)); [|done].
    intros [= <-]. simpl. rewrite length_app. simpl. repeat split; lia.
  - destruct (pool.workers p !! i) as [[?|]|]; try done.
    destruct (pool.buffer p) as [|task rest] eqn:Hb; [done|].
    intros [= <-]. simpl in *. rewrite length_insert. repeat split; lia.
  - destruct (pool.workers p !! i) as [[?|]|]; try done.
    intros [= <-]. simpl. rewrite length_insert. repeat split; lia.
Qed.

Lemma run_inv numWorkers es p p' :
  pool_inv numWorkers p -> pool.run p es = Some p' -> pool_inv numWorkers p'.
Proof.
  revert p. induction es as [|e es IH]; intros p Hinv; simpl.
  - by intros [= <-].
  - destruct (pool.step p e) as [p1|] eqn:Hstep; [|done].
    apply IH. by eapply step_inv.
Qed.

Lemma reachable_inv numWorkers p :
  pool.reachable numWorkers p -> pool_inv numWorkers p.
Proof.
  intros [es Hrun]. eapply run_inv; [apply initWorkerPool_inv | done].
Qed.

(** With a full channel, a worker makes room within two of its own steps:
    it returns from its task if it has one, and receives the next. *)
Lemma full_pool_progress numWorkers p :
  pool_inv numWorkers p ->
  0 < numWorkers ->
  length (pool.buffer p) = numWorkers ->
  exists es p',
    Forall (fun e => pool.worker_event e = true) es /\
    length es <= 2 /\
    pool.run p es = Some p' /\
    forall task, is_Some (pool.step p' (pool.Send task)).
Proof.
  intros (Hcap & Hws & _) Hpos Hfull.
  destruct (pool.buffer p) as [|task0 rest] eqn:Hbuf; simpl in Hfull; [lia|].
  destruct (pool.workers p !! 0) as [w|] eqn:Hw0;
    [|apply lookup_ge_None in Hw0; lia].
  assert (Hsend : forall ws task,
    is_Some (pool.step {| pool.capacity := pool.capacity p; pool.buffer := rest;
                          pool.workers := ws |} (pool.Send task))).
  { intros ws task. simpl.
    destruct (Nat.ltb_spec (length rest) (pool.capacity p)); [done | lia]. }
  destruct w as [running0|].
  - exists [pool.Finish 0; pool.Receive 0]. eexists.
    split; [by repeat constructor|]. split; [simpl; lia|].
    split; [|apply Hsend].
    simpl. rewrite Hw0. simpl.
    rewrite list_lookup_insert_eq by lia. by rewrite Hbuf.
  - exists [pool.Receive 0]. eexists.
    split; [by repeat constructor|]. split; [simpl; lia|].
    split; [|apply Hsend].
    simpl. by rewrite Hw0, Hbuf.
Qed.

(** C9: in every state the pool can reach, the channel buffers at most
    [numWorkers] tasks and at most [numWorkers] tasks are being executed.
    [proxyHandler] submits the request of a known domain as one send on the
    channel.  A send blocks exactly when the channel is at capacity; below
    capacity it never fails: the task joins the end of the queue and no new
    executor is started.  With a full channel the workers make room on their
    own, after which the blocked send goes through. *)
Theorem worker_pool_backpressure numWorkers p :
  pool.reachable numWorkers p ->
  length (pool.buffer p) <= numWorkers /\
  length (pool.running p) <= numWorkers /\
  (forall r now st proxy,
     proxyMap st !! http.Host r = Some proxy ->
     pool.send_of (proxyHandler r now st).1 = Some (pool.Send (proxy, r))) /\
  (forall task,
     pool.step p (pool.Send task) = None <-> length (pool.buffer p) = numWorkers) /\
  (forall task,
     length (pool.buffer p) < numWorkers ->
     pool.step p (pool.Send task) =
       Some {| pool.capacity := numWorkers;
               pool.buffer := pool.buffer p ++ [task];
               pool.workers := pool.workers p |}) /\
  (forall task p',
     pool.step p (pool.Send task) = Some p' -> pool.running p' = pool.running p) /\
  (0 < numWorkers ->
   length (pool.buffer p) = numWorkers ->
   exists es p',
     Forall (fun e => pool.worker_event e = true) es /\
     length es <= 2 /\
     pool.run p es = Some p' /\
     forall task, is_Some (pool.step p' (pool.Send task))).
Proof.
  intros Hreach. pose proof (reachable_inv _ _ Hreach) as Hinv.
  destruct Hinv as (Hcap & Hws & Hbuf).
  split; [done|]. split.
  { unfold pool.running. pose proof (length_running_le (pool.workers p)). lia. }
  split; [by intros r now st proxy Hd; unfold proxyHandler; rewrite Hd|].
  split; [|split; [|split]].
  - intros task. simpl. rewrite Hcap.
    destruct (Nat.ltb_spec (length (pool.buffer p)) numWorkers); split;
      (done || lia).
  - intros task Hlt. simpl. rewrite Hcap.
    destruct (Nat.ltb_spec (length (pool.buffer p)) numWorkers); [done | lia].
  - intros task p'. simpl.
    destruct (_ <? _)%nat; [|done]. by intros [= <-].
  - intros Hpos Hfull. by apply (full_pool_progress numWorkers).
Qed.

Lemma worker_pool_backpressure_witness :
  let proxy := newReverseProxy sample.url_Parse "http://10.0.0.5:9000" in
  let task n := (proxy, sample.request "example.com" "192.168.1.1:4711" n "") in
  let full := {| pool.capacity := 2;
                 pool.buffer := [task "/1"; task "/2"];
                 pool.workers := [None; None] |} in
  pool.run (pool.initWorkerPool 2) [pool.Send (task "/1"); pool.Send (task "/2")] =
    Some full /\
  pool.step full (pool.Send (task "/3")) = None /\
  exists es p',
    Forall (fun e => pool.worker_event e = true) es /\
    length es <= 2 /\
    pool.run full es = Some p' /\
    is_Some (pool.step p' (pool.Send (task "/3"))).
Proof.
  intros proxy task full.
  assert (Hreach : pool.reachable 2 full).
  { exists [pool.Send (task "/1"); pool.Send (task "/2")]. reflexivity. }
  split; [reflexivity|].
  destruct (worker_pool_backpressure 2 full Hreach)
    as (_ & _ & _ & Hblock & _ & _ & Hprogress).
  split; [by apply Hblock|].
  destruct (Hprogress ltac:(lia) eq_refl) as (es & p' & Hes & Hlen & Hrun & Hsend).
  exists es, p'. auto.
Defined.

(** * Further properties of the handler chain *)

(** The state the server's handler leaves: the rate limiter's, or the
    state it found when the peer address does not split. *)
Lemma serverHandler_state r now st :
  (serverHandler r now st).2 =
    match net.SplitHostPort (http.RemoteAddr r) with
    | None => st
    | Some (ip, _) => (rateLimit ip now st).2
    end.
Proof.
  destruct (net.SplitHostPort (http.RemoteAddr r)) as [[ip port]|] eqn:Hip.
  - destruct (rateLimit ip now st) as [ok st1] eqn:Hrl.
    rewrite (serverHandler_spec r now st ip port ok st1 Hip Hrl). simpl.
    unfold proxyHandler. by repeat (case_match; simpl).
  - unfold serverHandler, rateLimitMiddleware. by rewrite Hip.
Qed.

(** X1: a request whose peer address has no host and port gets 500 from the
    server's handler; no limiter is created for it and the state is left as
    it was.  The IP filter alone answers such a request 500 as well. *)
Theorem malformed_remote_addr_is_internal_error r now st :
  net.SplitHostPort (http.RemoteAddr r) = None ->
  serverHandler r now st =
    (http_Error "Internal Server Error" http.StatusInternalServerError, st) /\
  forall next, ipFilterMiddleware next r now st =
    (http_Error "Internal Server Error" http.StatusInternalServerError, st).
Proof.
  intros Hip. split.
  - unfold serverHandler, rateLimitMiddleware. by rewrite Hip.
  - intros next. unfold ipFilterMiddleware. by rewrite Hip.
Qed.

Lemma malformed_remote_addr_is_internal_error_witness :
  serverHandler (sample.request "example.com" "localhost" "/" "") 0%Z
    (sample.start sample.system_conf) =
  (http_Error "Internal Server Error" http.StatusInternalServerError,
   sample.start sample.system_conf).
Proof.
  exact (proj1 (malformed_remote_addr_is_internal_error
                  (sample.request "example.com" "localhost" "/" "") 0%Z
                  (sample.start sample.system_conf) eq_refl)).
Defined.

(** X2: a request that the limiter allows, from an IP on the whitelist and
    not on the blacklist, reaches dispatch: for a host in the routing table
    the request is submitted with its body wrapped in a [MaxBytesReader] of
    the configured size and nothing else changed; for any other host the
    answer is 404. *)
Theorem allowed_request_is_dispatched r now st ip port st1 :
  net.SplitHostPort (http.RemoteAddr r) = Some (ip, port) ->
  rateLimit ip now st = (true, st1) ->
  ip ∉ IPs (Blacklist (config st)) ->
  ip ∈ IPs (Whitelist (config st)) ->
  serverHandler r now st =
    (match proxyMap st !! http.Host r with
     | Some proxy =>
         Submit proxy
           {| http.Host := http.Host r;
              http.RemoteAddr := http.RemoteAddr r;
              http.URL := http.URL r;
              http.Header := http.Header r;
              http.Body := http.MaxBytesReader (http.Body r)
                             (MaxRequestSize (RequestLimits (config st))) |}
     | None => http_Error "Domain not found" http.StatusNotFound
     end, st1).
Proof.
  intros Hip Hrl Hb Hw.
  rewrite (serverHandler_spec r now st ip port true st1 Hip Hrl). simpl.
  destruct (rateLimit_frame _ _ _ _ _ Hrl) as [Hcfg Htab]. rewrite Hcfg.
  rewrite bool_decide_eq_false_2, bool_decide_eq_true_2 by done. simpl.
  unfold proxyHandler. simpl. rewrite Htab.
  by destruct (proxyMap st !! http.Host r).
Qed.

Lemma allowed_request_is_dispatched_witness :
  let st := (loadDomains sample.url_Parse "./list_domain"
               (sample.list_domain [("example.com.conf", Some "http://10.0.0.5:9000")])
               (sample.start sample.system_conf)).2 in
  let r := sample.request "example.com" "192.168.1.1:4711" "/a/b" "x=1" in
  (serverHandler r 0%Z st).1 =
    Submit (newReverseProxy sample.url_Parse "http://10.0.0.5:9000")
      (http.with_Body r (http.MaxBytesReader (http.Body_of "") 1048576)) /\
  (serverHandler (sample.request "other.example" "192.168.1.1:4711" "/" "") 0%Z st).1 =
    http_Error "Domain not found" http.StatusNotFound.
Proof.
  intros st r. split.
  - rewrite (allowed_request_is_dispatched r 0%Z st "192.168.1.1" "4711"
               (rateLimit "192.168.1.1" 0%Z st).2).
    + reflexivity.
    + reflexivity.
    + vm_compute. reflexivity.
    + apply existsb_eqb_not_elem_of. reflexivity.
    + apply existsb_eqb_elem_of. reflexivity.
  - rewrite (allowed_request_is_dispatched _ 0%Z st "192.168.1.1" "4711"
               (rateLimit "192.168.1.1" 0%Z st).2).
    + reflexivity.
    + reflexivity.
    + vm_compute. reflexivity.
    + apply existsb_eqb_not_elem_of. reflexivity.
    + apply existsb_eqb_elem_of. reflexivity.
Defined.

(** The rate limiter keeps every binding of the registry and never shrinks
    the heap. *)
Lemma rateLimit_keeps ip now st :
  (forall ip' l, rateLimiter st !! ip' = Some l ->
                 rateLimiter (rateLimit ip now st).2 !! ip' = Some l) /\
  length (heap st) <= length (heap (rateLimit ip now st).2) /\
  is_Some (rateLimiter (rateLimit ip now st).2 !! ip).
Proof.
  unfold rateLimit.
  pose proof (fun ip' l => getRateLimiter_keeps ip ip' st l) as Hkeep.
  pose proof (getRateLimiter_registered ip st) as Hreg.
  assert (Hlen : length (heap st) <= length (heap (getRateLimiter ip st).2)).
  { unfold getRateLimiter. destruct (rateLimiter st !! ip); simpl; [lia|].
    rewrite length_app. lia. }
  destruct (getRateLimiter ip st) as [l st1]. simpl in *.
  unfold Allow. destruct (heap st1 !! l); [|by eauto].
  destruct (rate.Allow _ now) as [ok lim']. simpl.
  rewrite length_insert. eauto.
Qed.

Lemma serverHandler_keeps r now st :
  config (serverHandler r now st).2 = config st /\
  proxyMap (serverHandler r now st).2 = proxyMap st /\
  (registry_wf st -> registry_wf (serverHandler r now st).2) /\
  (forall ip l, rateLimiter st !! ip = Some l ->
                rateLimiter (serverHandler r now st).2 !! ip = Some l) /\
  length (heap st) <= length (heap (serverHandler r now st).2).
Proof.
  rewrite serverHandler_state.
  destruct (net.SplitHostPort (http.RemoteAddr r)) as [[ip port]|]; [|done].
  destruct (rateLimit ip now st) as [ok st1] eqn:Hrl.
  destruct (rateLimit_frame _ _ _ _ _ Hrl) as [Hcfg Htab].
  pose proof (rateLimit_wf ip now st) as Hwf.
  destruct (rateLimit_keeps ip now st) as (Hkeep & Hlen & _).
  rewrite Hrl in Hwf, Hkeep, Hlen. done.
Qed.

Lemma serve_at_keeps rs st :
  config (serve_at serverHandler rs st).2 = config st /\
  proxyMap (serve_at serverHandler rs st).2 = proxyMap st /\
  (registry_wf st -> registry_wf (serve_at serverHandler rs st).2) /\
  (forall ip l, rateLimiter st !! ip = Some l ->
                rateLimiter (serve_at serverHandler rs st).2 !! ip = Some l) /\
  length (heap st) <= length (heap (serve_at serverHandler rs st).2).
Proof.
  revert st. induction rs as [|[r now] rs IH]; intros st; simpl; [done|].
  destruct (serverHandler_keeps r now st) as (Hcfg & Htab & Hwf & Hkeep & Hlen).
  destruct (serverHandler r now st) as [o st1]. simpl in *.
  specialize (IH st1). simpl in IH.
  destruct (serve_at serverHandler rs st1) as [os st2]. simpl in *.
  destruct IH as (Hcfg' & Htab' & Hwf' & Hkeep' & Hlen').
  split; [congruence|]. split; [congruence|]. split; [auto|].
  split; [auto | lia].
Qed.

(** X3: serving requests, at whatever instants, never changes the settings
    or the routing table; it keeps the limiter registry well formed, keeps
    every limiter that is registered (no client's limiter is ever removed or
    replaced), and never shrinks the heap.  So every state the server reaches
    from [initial] has a well-formed registry. *)
Theorem serving_keeps_settings_table_and_registry rs st :
  let st' := (serve_at serverHandler rs st).2 in
  config st' = config st /\
  proxyMap st' = proxyMap st /\
  (registry_wf st -> registry_wf st') /\
  (forall ip l, rateLimiter st !! ip = Some l -> rateLimiter st' !! ip = Some l) /\
  length (heap st) <= length (heap st') /\
  registry_wf (serve_at serverHandler rs initial).2.
Proof.
  destruct (serve_at_keeps rs st) as (H1 & H2 & H3 & H4 & H5).
  repeat (split; [done|]).
  apply serve_at_keeps, initial_wf.
Qed.

(** X4: every request with a well-formed peer address leaves a limiter
    registered for its IP, whatever the answer (a rate-limited, blacklisted
    or unlisted client gets one as well), and the limiter is still
    registered after any later requests. *)
Theorem every_client_gets_a_limiter r now st ip port rs :
  net.SplitHostPort (http.RemoteAddr r) = Some (ip, port) ->
  exists l,
    rateLimiter (serverHandler r now st).2 !! ip = Some l /\
    rateLimiter (serve_at serverHandler rs (serverHandler r now st).2).2 !! ip = Some l.
Proof.
  intros Hip.
  destruct (rateLimit_keeps ip now st) as (_ & _ & [l Hl]).
  exists l. rewrite serverHandler_state, Hip. split; [done|].
  by apply serve_at_keeps.
Qed.

Lemma every_client_gets_a_limiter_witness :
  let st := sample.start sample.system_conf in
  let r := sample.request "example.com" "203.0.113.10:4711" "/" "" in
  (serverHandler r 0%Z st).1 = http_Error "Forbidden" http.StatusForbidden /\
  exists l,
    rateLimiter (serverHandler r 0%Z st).2 !! "203.0.113.10" = Some l /\
    rateLimiter (serve_at serverHandler
                   [(sample.request "example.com" "192.168.1.1:80" "/" "", 5%Z)]
                   (serverHandler r 0%Z st).2).2 !! "203.0.113.10" = Some l.
Proof.
  intros st r. split; [vm_compute; reflexivity|].
  exact (every_client_gets_a_limiter r 0%Z st "203.0.113.10" "4711" _ eq_refl).
Defined.

(** X5: clients are limited independently: on a well-formed registry a
    request from one IP leaves the limiter of every other registered IP,
    and so its tokens, exactly as it was. *)
Theorem other_clients_are_not_charged r now st ip port ip' l' :
  net.SplitHostPort (http.RemoteAddr r) = Some (ip, port) ->
  registry_wf st ->
  rateLimiter st !! ip' = Some l' ->
  ip <> ip' ->
  rateLimiter (serverHandler r now st).2 !! ip' = Some l' /\
  heap (serverHandler r now st).2 !! l' = heap st !! l'.
Proof.
  intros Hip (Hin & Hinj & _) Hl' Hne.
  split; [by apply serverHandler_keeps|].
  rewrite serverHandler_state, Hip. unfold rateLimit.
  pose proof (Hin _ _ Hl') as Hlt.
  assert (Hget : (getRateLimiter ip st).1 <> l' /\
                 heap (getRateLimiter ip st).2 !! l' = heap st !! l').
  { destruct (rateLimiter st !! ip) as [l|] eqn:Hl.
    - rewrite (getRateLimiter_seen _ _ _ Hl). simpl. split; [|done].
      intros ->. by apply Hne, (Hinj ip ip' l').
    - rewrite (getRateLimiter_unseen _ _ Hl). simpl. split; [lia|].
      by rewrite lookup_app_l. }
  destruct (getRateLimiter ip st) as [l st1]. simpl in *.
  destruct Hget as [Hll' Hheap]. unfold Allow.
  destruct (heap st1 !! l) as [lim|]; [|done].
  destruct (rate.Allow lim now) as [ok lim']. simpl.
  by rewrite list_lookup_insert_ne.
Qed.

Lemma other_clients_are_not_charged_witness :
  let st := (serverHandler (sample.request "example.com" "10.0.0.1:80" "/" "") 0%Z
               (sample.start sample.system_conf)).2 in
  let r := sample.request "example.com" "192.168.1.1:4711" "/" "" in
  heap (serverHandler r 7%Z st).2 !! 0 = heap st !! 0.
Proof.
  intros st r.
  refine (proj2 (other_clients_are_not_charged r 7%Z st "192.168.1.1" "4711"
                   "10.0.0.1" 0 eq_refl _ _ _)).
  - apply (serverHandler_keeps _ _ (sample.start sample.system_conf)).
    split; [|split]; [intros ip l | intros ip ip' l | done];
      simpl; by rewrite lookup_empty.
  - vm_compute. reflexivity.
  - discriminate.
Defined.

(** * Further properties of reloading *)

(** ** Strings *)

Lemma append_cons c (a b : string) : String c a +:+ b = String c (a +:+ b).
Proof. reflexivity. Qed.

Lemma append_nil_l (b : string) : "" +:+ b = b.
Proof. reflexivity. Qed.

Lemma length_append (a b : string) :
  String.length (a +:+ b) = String.length a + String.length b.
Proof. induction a as [|c a IH]; simpl; [done | by rewrite IH]. Qed.

Lemma substring_0_length (s : string) : substring 0 (String.length s) s = s.
Proof. induction s as [|c s IH]; simpl; [done | by rewrite IH]. Qed.

Lemma substring_0_append (a b : string) :
  substring 0 (String.length a) (a +:+ b) = a.
Proof. induction a as [|c a IH]; simpl; [by destruct b | by rewrite IH]. Qed.

Lemma substring_append_skip (a b : string) m :
  substring (String.length a) m (a +:+ b) = substring 0 m b.
Proof. induction a as [|c a IH]; simpl; done. Qed.

Lemma substring_split (s : string) i :
  i <= String.length s ->
  s = substring 0 i s +:+ substring i (String.length s - i) s.
Proof.
  revert i. induction s as [|c s IH]; intros [|i] Hi; simpl in *.
  - done.
  - lia.
  - by rewrite substring_0_length.
  - rewrite append_cons. f_equal. apply IH. lia.
Qed.

Lemma IndexByte_append (a b : string) c :
  strings.IndexByte (a +:+ b) c =
    match strings.IndexByte a c with
    | Some i => Some i
    | None => (fun i => String.length a + i) <$> strings.IndexByte b c
    end.
Proof.
  induction a as [|x a IH]; [rewrite append_nil_l | rewrite append_cons]; simpl.
  - by destruct (strings.IndexByte b c).
  - destruct (Ascii.eqb x c); [done|]. rewrite IH.
    destruct (strings.IndexByte a c); [done|].
    by destruct (strings.IndexByte b c).
Qed.

Lemma LastIndexByte_append (a b : string) c :
  strings.LastIndexByte (a +:+ b) c =
    match strings.LastIndexByte b c with
    | Some i => Some (String.length a + i)
    | None => strings.LastIndexByte a c
    end.
Proof.
  induction a as [|x a IH]; [rewrite append_nil_l | rewrite append_cons]; simpl.
  - by destruct (strings.LastIndexByte b c).
  - rewrite IH. by destruct (strings.LastIndexByte b c).
Qed.

Lemma LastIndexByte_lt (s : string) c i :
  strings.LastIndexByte s c = Some i -> i < String.length s.
Proof.
  revert i. induction s as [|x s IH]; intros i; simpl; [done|].
  destruct (strings.LastIndexByte s c) as [j|].
  - intros [= <-]. specialize (IH j eq_refl). lia.
  - destruct (Ascii.eqb x c); [|done]. intros [= <-]. lia.
Qed.

(** The file [d.conf] has the extension [.conf] and names the domain [d]. *)
Lemma Ext_conf (d : string) : filepath.Ext (d +:+ ".conf") = ".conf".
Proof.
  unfold filepath.Ext. rewrite LastIndexByte_append.
  change (strings.LastIndexByte ".conf" ".") with (Some 0).
  unfold strings.slice_from. rewrite length_append, Nat.add_0_r.
  replace (String.length d + String.length ".conf" - String.length d)
    with 5 by (simpl; lia).
  rewrite substring_append_skip. reflexivity.
Qed.

Lemma TrimSuffix_conf (d : string) : strings.TrimSuffix (d +:+ ".conf") ".conf" = d.
Proof.
  unfold strings.TrimSuffix, strings.HasSuffix, strings.slice_from, strings.slice.
  rewrite length_append.
  replace (String.length d + String.length ".conf" - String.length ".conf")
    with (String.length d) by (simpl; lia).
  replace (String.length d + String.length ".conf" - String.length d)
    with 5 by (simpl; lia).
  rewrite substring_append_skip, Nat.sub_0_r, substring_0_append.
  destruct (Nat.leb_spec (String.length ".conf")
              (String.length d + String.length ".conf")); [done | lia].
Qed.

(** A name with the extension [.conf] is its domain followed by [.conf]. *)
Lemma Ext_conf_inv (name : string) :
  filepath.Ext name = ".conf" ->
  name = strings.TrimSuffix name (filepath.Ext name) +:+ ".conf".
Proof.
  intros Hext.
  assert (Hname : exists d, name = d +:+ ".conf").
  { unfold filepath.Ext in Hext.
    destruct (strings.LastIndexByte name ".") as [i|] eqn:Hi; [|done].
    apply LastIndexByte_lt in Hi.
    cbv zeta in Hext. destruct (strings.IndexByte _ "/"); [done|].
    exists (substring 0 i name). rewrite <- Hext.
    apply substring_split. lia. }
  destruct Hname as [d ->]. by rewrite Ext_conf, TrimSuffix_conf.
Qed.

(** ** What a reload does to each domain *)

Section ReloadFacts.

Variable url_Parse : string -> option url.URL.

(** One pass of the loop changes the entry of [d] only for the file
    [d.conf], and only if that file loads. *)
Lemma loadDomain_lookup fs directory table name d :
  loadDomain url_Parse fs directory table name !! d =
    if decide (name = d +:+ ".conf") then
      match Load fs (filepath.Join directory name) with
      | Some cfg =>
          Some (newReverseProxy url_Parse (ini.KeyString cfg "proxy" "backend_url"))
      | None => table !! d
      end
    else table !! d.
Proof.
  unfold loadDomain. case_decide as Hname.
  - subst name. rewrite Ext_conf, TrimSuffix_conf. simpl.
    destruct (Load fs _); [|done]. by rewrite lookup_insert_eq.
  - destruct (String.eqb_spec (filepath.Ext name) ".conf") as [Hext|]; [|done].
    destruct (Load fs _); [|done].
    rewrite lookup_insert_ne; [done|].
    intros Hd. apply Hname. rewrite <- Hd. by apply Ext_conf_inv.
Qed.

Lemma fold_loadDomain_lookup fs directory files table d :
  fold_left (loadDomain url_Parse fs directory) files table !! d =
    match (if decide (d +:+ ".conf" ∈ files)
           then Load fs (filepath.Join directory (d +:+ ".conf"))
           else None) with
    | Some cfg =>
        Some (newReverseProxy url_Parse (ini.KeyString cfg "proxy" "backend_url"))
    | None => table !! d
    end.
Proof.
  revert table. induction files as [|file files IH]; intros table.
  { simpl. destruct (decide (d +:+ ".conf" ∈ [])) as [Hin|Hin]; [|done].
    by apply elem_of_nil in Hin. }
  simpl. rewrite IH, loadDomain_lookup.
  destruct (decide (d +:+ ".conf" ∈ file :: files)) as [Hcons|Hcons],
    (decide (d +:+ ".conf" ∈ files)) as [Hin|Hin],
    (decide (file = d +:+ ".conf")) as [->|Hne];
    first [ done
          | by destruct (Load fs _)
          | exfalso; apply elem_of_cons in Hcons as [?|?]; [congruence | done]
          | exfalso; apply Hcons; by left
          | exfalso; apply Hcons; by right ].
Qed.

(** X6: after [loadDomains] on a readable directory, the entry of a domain
    [d] is the proxy for the backend URL in [d.conf] when the directory
    lists that file and it loads, and is what it was before otherwise.  So
    from an empty table the domains are exactly those of the files [d.conf]
    that load. *)
Theorem loadDomains_lookup directory fs st files d :
  ReadDir fs directory = Some files ->
  let st' := (loadDomains url_Parse directory fs st).2 in
  proxyMap st' !! d =
    match (if decide (d +:+ ".conf" ∈ files)
           then Load fs (filepath.Join directory (d +:+ ".conf"))
           else None) with
    | Some cfg =>
        Some (newReverseProxy url_Parse (ini.KeyString cfg "proxy" "backend_url"))
    | None => proxyMap st !! d
    end /\
  (proxyMap st = ∅ ->
   (is_Some (proxyMap st' !! d) <->
    d +:+ ".conf" ∈ files /\
    is_Some (Load fs (filepath.Join directory (d +:+ ".conf"))))).
Proof.
  intros Hdir st'.
  assert (Hlook : proxyMap st' !! d =
    match (if decide (d +:+ ".conf" ∈ files)
           then Load fs (filepath.Join directory (d +:+ ".conf"))
           else None) with
    | Some cfg =>
        Some (newReverseProxy url_Parse (ini.KeyString cfg "proxy" "backend_url"))
    | None => proxyMap st !! d
    end).
  { unfold st', loadDomains. rewrite Hdir. simpl. apply fold_loadDomain_lookup. }
  split; [exact Hlook|].
  intros Hempty. rewrite Hlook, Hempty, lookup_empty.
  case_decide as Hin.
  - destruct (Load fs _); split.
    + by intros _.
    + by intros _.
    + by intros []%is_Some_None.
    + by intros [_ []%is_Some_None].
  - split; [by intros []%is_Some_None | by intros [??]].
Qed.

Lemma loadDomains_twice directory fs st :
  loadDomains url_Parse directory fs (loadDomains url_Parse directory fs st).2 =
  loadDomains url_Parse directory fs st.
Proof.
  unfold loadDomains. destruct (ReadDir fs directory) as [files|]; simpl; [|done].
  do 2 f_equal. apply map_eq. intros d.
  rewrite !fold_loadDomain_lookup.
  by destruct (if decide _ then _ else _).
Qed.

(** X7: reloading twice from the same files gives what reloading once
    gives, in the table and in the returned error, and so does reloading
    any number of times: a redundant reload changes nothing. *)
Theorem loadDomains_idempotent directory fs st :
  loadDomains url_Parse directory fs (loadDomains url_Parse directory fs st).2 =
    loadDomains url_Parse directory fs st /\
  forall n,
    Nat.iter (S n) (fun st => (loadDomains url_Parse directory fs st).2) st =
    (loadDomains url_Parse directory fs st).2.
Proof.
  split; [apply loadDomains_twice|].
  induction n as [|n IH]; [done|].
  change (Nat.iter (S (S n)) ?f st) with (f (Nat.iter (S n) f st)).
  by rewrite IH, loadDomains_twice.
Qed.

Lemma fold_loadDomain_unchanged fs directory files table :
  (forall name, name ∈ files ->
     filepath.Ext name <> ".conf" \/ Load fs (filepath.Join directory name) = None) ->
  fold_left (loadDomain url_Parse fs directory) files table = table.
Proof.
  revert table. induction files as [|file files IH]; intros table Hfiles; [done|].
  simpl. rewrite IH by (intros name Hin; apply Hfiles; by right).
  unfold loadDomain.
  destruct (Hfiles file) as [Hext|Hload]; [by left | |].
  - by destruct (String.eqb_spec (filepath.Ext file) ".conf").
  - rewrite Hload. by destruct (String.eqb _ _).
Qed.

(** X8: a reload ignores every directory entry whose name does not end in
    [.conf] and every file that does not load: when the directory holds
    nothing else the state is returned as it was, without an error.  The
    names that count are exactly those of the form [d.conf]. *)
Theorem loadDomains_ignores_other_files directory fs st files :
  ReadDir fs directory = Some files ->
  (forall name, name ∈ files ->
     filepath.Ext name <> ".conf" \/ Load fs (filepath.Join directory name) = None) ->
  loadDomains url_Parse directory fs st = (true, st) /\
  forall name, filepath.Ext name = ".conf" <-> exists d, name = d +:+ ".conf".
Proof.
  intros Hdir Hfiles. split.
  - unfold loadDomains. rewrite Hdir, fold_loadDomain_unchanged by done.
    by destruct st.
  - intros name. split.
    + intros Hext. eexists. by apply Ext_conf_inv.
    + intros [d ->]. apply Ext_conf.
Qed.

(** X9: a domain file that loads and whose backend URL parses makes the
    domain routable: after the reload a request for host [d] is submitted
    with the proxy of [d.conf], and that proxy's director sends it to the
    backend's scheme and host with the request's own path and query. *)
Theorem loaded_domain_is_routed directory fs st files d cfg u r now :
  ReadDir fs directory = Some files ->
  d +:+ ".conf" ∈ files ->
  Load fs (filepath.Join directory (d +:+ ".conf")) = Some cfg ->
  url_Parse (ini.KeyString cfg "proxy" "backend_url") = Some u ->
  http.Host r = d ->
  let st' := (loadDomains url_Parse directory fs st).2 in
  exists proxy,
    proxyHandler r now st' = (Submit proxy r, st') /\
    Director proxy r =
      Some {| http.Host := http.Host r;
              http.RemoteAddr := http.RemoteAddr r;
              http.URL := {| url.Scheme := url.Scheme u;
                             url.Host := url.Host u;
                             url.Path := url.Path (http.URL r);
                             url.RawQuery := url.RawQuery (http.URL r) |};
              http.Header := http.Header r;
              http.Body := http.Body r |}.
Proof.
  intros Hdir Hin Hload Hparse Hhost st'.
  exists (newReverseProxy url_Parse (ini.KeyString cfg "proxy" "backend_url")).
  split.
  - unfold proxyHandler, st', loadDomains. rewrite Hdir, Hhost. simpl.
    rewrite fold_loadDomain_lookup, decide_True, Hload by done. done.
  - simpl. by rewrite Hparse.
Qed.

(** X10: [main] gets past its first two steps exactly when [system.conf]
    loads and [./list_domain] can be read; a domain file that does not load
    does not stop it.  The state it then serves from has the settings of
    [system.conf], no limiter yet, and exactly the domains of the files
    [d.conf] that load in its routing table. *)
Theorem startup_spec fs :
  match startup url_Parse fs with
  | Some st =>
      exists files,
        ReadDir fs "./list_domain" = Some files /\
        loadConfig "system.conf" fs initial =
          (true, {| config := config st; proxyMap := ∅;
                    rateLimiter := ∅; heap := [] |}) /\
        rateLimiter st = ∅ /\
        heap st = [] /\
        forall d,
          proxyMap st !! d =
            if decide (d +:+ ".conf" ∈ files)
            then (fun cfg => newReverseProxy url_Parse
                               (ini.KeyString cfg "proxy" "backend_url")) <$>
                 Load fs (filepath.Join "./list_domain" (d +:+ ".conf"))
            else None
  | None => Load fs "system.conf" = None \/ ReadDir fs "./list_domain" = None
  end.
Proof.
  unfold startup, loadConfig.
  destruct (Load fs "system.conf") as [cfg|]; [|by left].
  unfold loadDomains.
  destruct (ReadDir fs "./list_domain") as [files|]; [|by right].
  simpl. exists files. repeat split.
  intros d. rewrite fold_loadDomain_lookup, lookup_empty.
  case_decide; [|done]. by destruct (Load fs _).
Qed.

End ReloadFacts.

Lemma loadDomains_lookup_witness :
  let fs := sample.list_domain
    [("README", Some "about"); ("broken.conf", None);
     ("example.com.conf", Some "http://10.0.0.5:9000")] in
  let st' := (loadDomains sample.url_Parse "./list_domain" fs
                (sample.start sample.system_conf)).2 in
  proxyMap st' !! "example.com" =
    Some (newReverseProxy sample.url_Parse "http://10.0.0.5:9000") /\
  proxyMap st' !! "broken" = None /\
  proxyMap st' !! "README" = None.
Proof.
  intros fs st'.
  pose proof (fun d => proj1 (loadDomains_lookup sample.url_Parse "./list_domain" fs
                 (sample.start sample.system_conf)
                 ["README"; "broken.conf"; "example.com.conf"] d eq_refl)) as H.
  fold st' in H. rewrite !H. vm_compute. auto.
Defined.

Lemma loadDomains_ignores_other_files_witness :
  let fs := sample.list_domain
    [("README", Some "about"); ("broken.conf", None);
     ("example.com.conf.bak", Some "http://10.0.0.5:9000")] in
  loadDomains sample.url_Parse "./list_domain" fs (sample.start sample.system_conf) =
    (true, sample.start sample.system_conf).
Proof.
  intros fs.
  apply (loadDomains_ignores_other_files sample.url_Parse "./list_domain" fs
           (sample.start sample.system_conf)
           ["README"; "broken.conf"; "example.com.conf.bak"] eq_refl).
  intros name Hin.
  repeat (apply elem_of_cons in Hin as [->|Hin]);
    [left; discriminate | right; reflexivity | left; discriminate |].
  by apply elem_of_nil in Hin.
Defined.

Lemma loaded_domain_is_routed_witness :
  let fs := sample.list_domain [("example.com.conf", Some "http://10.0.0.5:9000")] in
  let st' := (loadDomains sample.url_Parse "./list_domain" fs
                (sample.start sample.system_conf)).2 in
  let r := sample.request "example.com" "192.168.1.1:4711" "/a/b" "x=1" in
  exists proxy,
    proxyHandler r 0%Z st' = (Submit proxy r, st') /\
    Director proxy r =
      Some {| http.Host := "example.com";
              http.RemoteAddr := "192.168.1.1:4711";
              http.URL := {| url.Scheme := "http"; url.Host := "10.0.0.5:9000";
                             url.Path := "/a/b"; url.RawQuery := "x=1" |};
              http.Header := [("Accept", ["*/*"])];
              http.Body := http.Body_of "" |}.
Proof.
  intros fs st' r.
  apply (loaded_domain_is_routed sample.url_Parse "./list_domain" fs
           (sample.start sample.system_conf) ["example.com.conf"] "example.com"
           (sample.ini_file "proxy" [("backend_url", "http://10.0.0.5:9000")])
           {| url.Scheme := "http"; url.Host := "10.0.0.5:9000";
              url.Path := ""; url.RawQuery := "" |} r 0%Z).
  - reflexivity.
  - by left.
  - reflexivity.
  - reflexivity.
  - reflexivity.
Defined.

(** * Further properties of the settings and of client addresses *)

Lemma Split_nonempty s sep : strings.Split s sep <> [].
Proof.
  destruct s as [|a s]; simpl; [done|].
  destruct (Ascii.eqb a sep); [done|]. by destruct (strings.Split s sep).
Qed.

(** Joining the fields with the separator gives the string back. *)
Lemma concat_Split s sep :
  String.concat (String sep "") (strings.Split s sep) = s.
Proof.
  induction s as [|a s IH]; simpl; [done|].
  pose proof (Split_nonempty s sep) as Hne.
  destruct (Ascii.eqb_spec a sep) as [->|Hsep].
  - destruct (strings.Split s sep) as [|h t]; [done|].
    change (String.concat (String sep "") ("" :: h :: t))
      with (String sep (String.concat (String sep "") (h :: t))).
    by rewrite IH.
  - destruct (strings.Split s sep) as [|h t]; [done|].
    destruct t as [|h' t]; simpl in *; by rewrite <- IH.
Qed.

(** No field holds the separator. *)
Lemma Split_no_sep s sep :
  Forall (fun x => strings.IndexByte x sep = None) (strings.Split s sep).
Proof.
  induction s as [|a s IH]; simpl; [by constructor|].
  destruct (Ascii.eqb a sep) eqn:Ha; [by constructor|].
  destruct (strings.Split s sep) as [|h t]; [by repeat constructor; simpl; rewrite Ha|].
  inversion IH as [|? ? Hh Ht]; subst. constructor; [|done].
  simpl. by rewrite Ha, Hh.
Qed.

(** X11: the IP lists that [loadConfig] stores are the comma-separated
    fields of the [ips] keys, taken verbatim: a list is never empty, none of
    its entries holds a comma, and joining the entries with commas gives the
    key's text back. *)
Theorem loadConfig_ip_lists filePath fs st cfg :
  Load fs filePath = Some cfg ->
  let c := config (loadConfig filePath fs st).2 in
  (IPs (Whitelist c) <> [] /\
   Forall (fun ip => strings.IndexByte ip "," = None) (IPs (Whitelist c)) /\
   String.concat "," (IPs (Whitelist c)) = ini.KeyString cfg "whitelist" "ips") /\
  (IPs (Blacklist c) <> [] /\
   Forall (fun ip => strings.IndexByte ip "," = None) (IPs (Blacklist c)) /\
   String.concat "," (IPs (Blacklist c)) = ini.KeyString cfg "blacklist" "ips").
Proof.
  intros Hload c. unfold c, loadConfig. rewrite Hload. simpl.
  split; (split; [apply Split_nonempty|]; split;
            [apply Split_no_sep | apply concat_Split]).
Qed.

Lemma loadConfig_ip_lists_witness :
  let c := config (loadConfig "system.conf" sample.blacklist_only initial).2 in
  IPs (Whitelist c) = [""] /\
  IPs (Blacklist c) = ["203.0.113.10"] /\
  String.concat "," (IPs (Blacklist c)) = "203.0.113.10".
Proof.
  intros c. split; [reflexivity|]. split; [reflexivity|].
  exact (proj2 (proj2 (proj2
           (loadConfig_ip_lists "system.conf" sample.blacklist_only initial
              (sample.ini_file "blacklist" [("ips", "203.0.113.10")]) eq_refl)))).
Defined.

Lemma append_assoc (a b c : string) : (a +:+ b) +:+ c = a +:+ (b +:+ c).
Proof.
  induction a as [|x a IH]; [done|]. by rewrite !append_cons, IH.
Qed.

Lemma LastIndexByte_None s c :
  strings.IndexByte s c = None -> strings.LastIndexByte s c = None.
Proof.
  induction s as [|x s IH]; simpl; [done|].
  destruct (Ascii.eqb x c); [done|].
  destruct (strings.IndexByte s c); [done|]. intros _. by rewrite IH.
Qed.

(** A string that holds no bracket does not start with one. *)
Lemma not_bracketed (s : string) :
  strings.IndexByte s "[" = None ->
  match s with
  | String "[" _ => true
  | _ => false
  end = false.
Proof.
  destruct s as [|a s]; [done|].
  destruct a as [[] [] [] [] [] [] [] []]; try reflexivity.
  discriminate.
Qed.

(** [net.SplitHostPort] on [host:port], for a plain host and port. *)
Lemma SplitHostPort_plain host port :
  plain host -> plain port ->
  net.SplitHostPort (host +:+ ":" +:+ port) = Some (host, port).
Proof.
  intros (Hc & Hl & Hr) (Pc & Pl & Pr).
  assert (Hidx : forall c, Ascii.eqb ":" c = false ->
            strings.IndexByte host c = None -> strings.IndexByte port c = None ->
            strings.IndexByte (host +:+ String ":" port) c = None).
  { intros c Hcolon Hh Hp. rewrite IndexByte_append, Hh.
    change (strings.IndexByte (String ":" port) c)
      with (if Ascii.eqb ":" c then Some 0 else S <$> strings.IndexByte port c).
    by rewrite Hcolon, Hp. }
  unfold net.SplitHostPort.
  change (host +:+ ":" +:+ port) with (host +:+ String ":" port).
  rewrite LastIndexByte_append.
  change (strings.LastIndexByte (String ":" port) ":")
    with (match strings.LastIndexByte port ":" with
          | Some i => Some (S i)
          | None => Some 0
          end).
  rewrite (LastIndexByte_None _ _ Pc).
  rewrite not_bracketed by (by apply Hidx).
  unfold strings.slice, strings.slice_from.
  rewrite !Nat.add_0_r, !Nat.sub_0_r, substring_0_append, Hc.
  cbv beta iota.
  rewrite !Nat.sub_0_r, substring_0_length, !Hidx by done.
  do 2 f_equal.
  change (String ":" port) with (":" +:+ port).
  rewrite <- append_assoc.
  replace (String.length host + 1) with (String.length (host +:+ ":"))
    by (rewrite length_append; simpl; lia).
  rewrite (length_append (host +:+ ":")), substring_append_skip.
  replace (String.length (host +:+ ":") + String.length port
           - String.length (host +:+ ":")) with (String.length port) by lia.
  apply substring_0_length.
Qed.

(** X12: the client a request is charged to is the host part of its peer
    address; the port does not count.  Two requests from one plain host,
    whatever their ports, use one limiter: the second finds the limiter the
    first registered and allocates nothing. *)
Theorem same_host_shares_limiter host port1 port2 r1 r2 now1 now2 st :
  plain host -> plain port1 -> plain port2 ->
  http.RemoteAddr r1 = host +:+ ":" +:+ port1 ->
  http.RemoteAddr r2 = host +:+ ":" +:+ port2 ->
  let st1 := (serverHandler r1 now1 st).2 in
  let st2 := (serverHandler r2 now2 st1).2 in
  is_Some (rateLimiter st1 !! host) /\
  rateLimiter st2 = rateLimiter st1 /\
  length (heap st2) = length (heap st1).
Proof.
  intros Hhost Hp1 Hp2 Hr1 Hr2 st1 st2.
  assert (Hreg : is_Some (rateLimiter st1 !! host)).
  { unfold st1. rewrite serverHandler_state, Hr1, SplitHostPort_plain by done.
    apply rateLimit_keeps. }
  split; [done|]. destruct Hreg as [l Hl].
  unfold st2. rewrite serverHandler_state, Hr2, SplitHostPort_plain by done.
  unfold rateLimit. rewrite (getRateLimiter_seen _ _ _ Hl).
  unfold Allow. destruct (heap st1 !! l); [|done].
  destruct (rate.Allow _ now2). simpl. by rewrite length_insert.
Qed.

Lemma same_host_shares_limiter_witness :
  let st := sample.start sample.system_conf in
  let r1 := sample.request "example.com" "192.168.1.1:4711" "/" "" in
  let r2 := sample.request "example.com" "192.168.1.1:4712" "/" "" in
  rateLimiter (serverHandler r2 1%Z (serverHandler r1 0%Z st).2).2 =
    rateLimiter (serverHandler r1 0%Z st).2.
Proof.
  intros st r1 r2.
  refine (proj1 (proj2 (same_host_shares_limiter "192.168.1.1" "4711" "4712"
                          r1 r2 0%Z 1%Z st _ _ _ eq_refl eq_refl)));
    repeat split.
Defined.

(** * Further properties of the watcher and of the worker pool *)

Section WatchFacts.

Variables (fsnotify_Write fsnotify_Create fsnotify_Remove : Z).
Variable url_Parse : string -> option url.URL.

(** X14: the watcher reloads once per event that carries a write, create
    or remove bit and does nothing on any other event.  While the files do
    not change, a burst of events leaves the state that a single reload
    leaves if one of the events triggers a reload, and the state as it was
    otherwise. *)
Theorem watchEvents_burst directory fs events st :
  watchEvents fsnotify_Write fsnotify_Create fsnotify_Remove url_Parse directory
    ((fun event => (event, fs)) <$> events) st =
  if existsb (reloads fsnotify_Write fsnotify_Create fsnotify_Remove) events
  then (loadDomains url_Parse directory fs st).2
  else st.
Proof.
  revert st. induction events as [|event events IH]; intros st; [done|].
  simpl. rewrite IH.
  destruct (reloads _ _ _ event); simpl; [|done].
  destruct (existsb _ events); [|done].
  by rewrite loadDomains_twice.
Qed.

End WatchFacts.







(** X15: the limiter is charged before any other check, so a request that
    is then refused counts against its client as well: the state after a
    request with a well-formed peer address is the rate limiter's, whether
    the answer is 429, 403, 401, 404 or a dispatch, and two requests from
    one peer address at one instant leave the same state whatever their
    host, path and body. *)
Theorem refused_requests_are_charged r r' now st ip port :
  net.SplitHostPort (http.RemoteAddr r) = Some (ip, port) ->
  http.RemoteAddr r' = http.RemoteAddr r ->
  (serverHandler r now st).2 = (rateLimit ip now st).2 /\
  (serverHandler r' now st).2 = (serverHandler r now st).2.
Proof.
  intros Hip Haddr. rewrite !serverHandler_state, Haddr, Hip. done.
Qed.

Lemma refused_requests_are_charged_witness :
  let st := sample.start sample.system_conf in
  let r := sample.request "example.com" "203.0.113.10:4711" "/" "" in
  (serverHandler r 0%Z st).1 = http_Error "Forbidden" http.StatusForbidden /\
  heap (serverHandler r 0%Z st).2 =
    [{| rate.limit := 1; rate.burst := 5;
        rate.tokens := 4 * rate.token; rate.last := 0%Z |}].
Proof.
  intros st r. split; [vm_compute; reflexivity|].
  rewrite (proj1 (refused_requests_are_charged r r 0%Z st "203.0.113.10" "4711"
                    eq_refl eq_refl)).
  vm_compute. reflexivity.
Defined.
